(** * Group call panel: invite controller, invite feedback and title layout

    A shallow embedding of [Telegram/SourceFiles/calls/calls_group_panel.cpp]
    and the properties its specification states about it.

    Conventions of the embedding.
    - A C++ [int] is a [Z].  The counts of the invite controller, one of
      which the server reports, are added and subtracted as the program adds
      and subtracts 32-bit [int]s, wrapping around ([int_add], [int_sub]).
      Pixel coordinates and sizes of widgets stay far from the bounds of
      [int] and are computed in [Z]; [a / b] on [int] truncates towards zero
      and is written [Z.quot] ([÷]).
    - A [not_null<UserData*>] or [not_null<PeerData*>] is the identity of the
      object pointed to ([PeerId]); what the code reads through the pointer
      ([isSelf()], [isBot()], [firstName]) is looked up in the [Session].
    - A [base::flat_set] of such pointers is a [gset PeerId].
    - Objects referred to by raw and weak pointers ([GroupCall]) live in a
      store [gmap GroupCallPtr GroupCall]; a destroyed object is absent from it.
    - [Expects] and [Unexpected] terminate the program: functions that can
      reach them return a [Result]. *)

From Stdlib Require Import ZArith String Ascii List Bool Lia DecimalString.
From stdpp Require Import base option gmap sets.

Local Open Scope Z_scope.

(** ** Termination by a failed assertion *)

Inductive Result (A : Type) : Type :=
| Returned (a : A)
| Fatal (message : string).
Arguments Returned {A} a.
Arguments Fatal {A} message.

Definition bindResult {A B} (r : Result A) (k : A -> Result B) : Result B :=
  match r with
  | Returned a => k a
  | Fatal m => Fatal m
  end.

Notation "x <-! r ; k" := (bindResult r (fun x => k))
  (at level 100, r at next level, right associativity).

(** [Expects(cond)] of base/assertion.h. *)
Definition Expects (cond : bool) : Result unit :=
  if cond then Returned tt else Fatal "Expects".

(** ** QString: decimal numbers and place markers

    The counter of the invite box is built with
    [qsl("%1 / %2").arg(inOrInvited).arg(canBeInvited)].  [QString::arg]
    replaces every occurrence of the lowest numbered place marker ([%1] to
    [%99], optionally written [%L1]) by its argument; an [int] argument is
    written in decimal. *)

Module QString.

(** [QString::number(int)]. *)
Definition number (n : Z) : string := NilZero.string_of_int (Z.to_int n).

(** [QChar::digitValue()], with [None] for the -1 of a character that is
    not a digit. *)
Definition digitValue (c : ascii) : option nat :=
  let n := nat_of_ascii c in
  if (Nat.leb 48 n && Nat.leb n 57)%bool then Some (n - 48)%nat else None.

(** The text after a [%]: the number of the place marker that starts there
    and how many characters it takes, or [None] when no marker does. *)
Definition parseEscape (s : string) : option (nat * nat) :=
  let '(l, s1) :=
    match s with
    | String c r => if Ascii.eqb c "L" then (1%nat, r) else (0%nat, s)
    | EmptyString => (0%nat, s)
    end in
  match s1 with
  | String d1 r1 =>
      match digitValue d1 with
      | Some n1 =>
          match r1 with
          | String d2 _ =>
              match digitValue d2 with
              | Some n2 => Some (10 * n1 + n2, l + 2)%nat
              | None => Some (n1, l + 1)%nat
              end
          | EmptyString => Some (n1, l + 1)%nat
          end
      | None => None
      end
  | EmptyString => None
  end.

Definition lowest (n : nat) (o : option nat) : nat :=
  match o with
  | Some m => Nat.min n m
  | None => n
  end.

(** The lowest place marker of a string, if it has one. *)
Fixpoint findArgEscapes (s : string) : option nat :=
  match s with
  | EmptyString => None
  | String c rest =>
      if Ascii.eqb c "%" then
        match parseEscape rest with
        | Some (n, _) => Some (lowest n (findArgEscapes rest))
        | None => findArgEscapes rest
        end
      else findArgEscapes rest
  end.

(** The string with the markers numbered [escape] replaced by [a]; [skip]
    counts the characters of a replaced marker still to be dropped. *)
Fixpoint replaceArgEscapes (escape : nat) (a : string) (skip : nat)
    (s : string) : string :=
  match s with
  | EmptyString => EmptyString
  | String c rest =>
      match skip with
      | S k => replaceArgEscapes escape a k rest
      | O =>
          if Ascii.eqb c "%" then
            match parseEscape rest with
            | Some (n, len) =>
                if Nat.eqb n escape
                then String.append a (replaceArgEscapes escape a len rest)
                else String c (replaceArgEscapes escape a O rest)
            | None => String c (replaceArgEscapes escape a O rest)
            end
          else String c (replaceArgEscapes escape a O rest)
      end
  end.

(** [QString::arg(const QString &a)]; a string with no place marker is
    returned as it is. *)
Definition arg (s a : string) : string :=
  match findArgEscapes s with
  | Some escape => replaceArgEscapes escape a O s
  | None => s
  end.

(** [QString::arg(int a)]. *)
Definition arg_int (s : string) (a : Z) : string := arg s (number a).

Fixpoint hasPercent (s : string) : bool :=
  match s with
  | EmptyString => false
  | String c rest => Ascii.eqb c "%" || hasPercent rest
  end.

End QString.

(** ** Users, channels and calls as this file sees them *)

Abbreviation PeerId := positive (only parsing).
Abbreviation CallId := Z (only parsing).

(** Modelled from the spec: [PeerData] and [UserData] (data/data_peer.h,
    data/data_user.h) are not in this file.  The record holds what the code
    reads through a peer pointer, the spec's user attributes: [isUser()],
    [isSelf()], [isBot()] and, for a user, [firstName]. *)
Record PeerData := {
  isUser : bool;
  isSelf : bool;
  isBot : bool;
  firstName : string
}.

(** Modelled from the spec: [Main::Session] (main/main_session.h) is not in
    this file.  [user()] is the viewer's own identity; [session_peer] gives
    the object behind every peer pointer. *)
Record Session := {
  session_user : PeerId;
  session_peer : PeerId -> PeerData
}.

(** Modelled from the spec: [Data::GroupCall] (data/data_group_call.h) is
    not in this file.  The call as the channel knows it: [id()],
    [participants()] (their [user] members) and [fullCount()]. *)
Record DataGroupCall := {
  data_call_id : CallId;
  participants : list PeerId;
  data_fullCount : Z
}.

(** Modelled from the spec: [ChannelData] (data/data_channel.h) is not in
    this file.  Its member count, session, call, the users already invited
    to a call ([owner().invitedToCallUsers(id)]) and [canManageCall()]. *)
Record ChannelData := {
  membersCount : Z;
  session : Session;
  channel_call : option DataGroupCall;
  invitedToCallUsers : CallId -> gset PeerId;
  canManageCall : bool
}.

Module MuteState.
(** Modelled from the spec: the enum [MuteState] of calls/calls_group_call.h
    is not in this file; its values are the three this file names. *)
Inductive t := Active | Muted | ForceMuted.

Definition eqb (a b : t) : bool :=
  match a, b with
  | Active, Active | Muted, Muted | ForceMuted, ForceMuted => true
  | _, _ => false
  end.
End MuteState.

(** [std::variant<int, not_null<UserData*>>], the result of
    [GroupCall::inviteUsers].  [Valueless] is the variant that holds neither
    alternative ([valueless_by_exception]): both [std::get_if] give null. *)
Inductive InviteResult :=
| InvitedCount (count : Z)
| InvitedUser (user : PeerId)
| Valueless.

(** The operations this file performs on a [Calls::GroupCall]. *)
Inductive CallOp :=
| OpDiscard
| OpHangup
| OpInviteUsers (users : list PeerId)
| OpToggleMute (user : PeerId) (mute : bool).

(** Modelled from the spec: [Calls::GroupCall] (calls/calls_group_call.h) is
    not in this file.  [id()] and [channel()]; [muted()] and [setMuted] read
    and write [muted]; [inviteUsers_result] is what [inviteUsers] answers for
    a list of users; [call_ops] records, in order, the operations performed
    on the call. *)
Record GroupCall := {
  call_id : CallId;
  call_channel : ChannelData;
  muted : MuteState.t;
  inviteUsers_result : list PeerId -> InviteResult;
  call_ops : list CallOp
}.

(** The call after one more operation on it. *)
Definition performed (op : CallOp) (call : GroupCall) : GroupCall :=
  {| call_id := call_id call;
     call_channel := call_channel call;
     muted := muted call;
     inviteUsers_result := inviteUsers_result call;
     call_ops := call_ops call ++ [op] |}.

(** Modelled from the spec: [GroupCall::setMuted] is not in this file; it
    sets the mute state [muted()] reads. *)
Definition setMuted (mute : MuteState.t) (call : GroupCall) : GroupCall :=
  {| call_id := call_id call;
     call_channel := call_channel call;
     muted := mute;
     inviteUsers_result := inviteUsers_result call;
     call_ops := call_ops call |}.

(** Modelled from the spec: [GroupCall::inviteUsers] is not in this file;
    the invite operation of the call, with its result (a count, or the single
    user invited). *)
Definition inviteUsers (users : list PeerId) (call : GroupCall)
    : InviteResult * GroupCall :=
  (inviteUsers_result call users, performed (OpInviteUsers users) call).

(** The live [GroupCall] objects, by their address; a weak pointer's [get()]
    is the lookup of the address in this store, and gives nothing once the
    call is destroyed. *)
Abbreviation GroupCallPtr := positive (only parsing).
Abbreviation Calls := (gmap positive GroupCall) (only parsing).

(** ** Translated texts *)

Inductive LangKey :=
| lng_group_call_title
| lng_group_call_invite_title
| lng_group_call_invite_button
| lng_group_call_invite_done_user
| lng_group_call_invite_done_many
| lng_group_call_leave_title
| lng_group_call_leave_sure
| lng_group_call_end
| lng_group_call_leave
| lng_cancel.

Inductive EntityType := EntityBold.

Record EntityInText := {
  entity_type : EntityType;
  entity_offset : nat;
  entity_length : nat
}.

Record TextWithEntities := {
  text : string;
  entities : list EntityInText
}.

Module Ui.
Module Text.
(** Modelled from the spec: [Ui::Text::Bold] (ui/text/text_utilities.h) is
    not in this file; the text in bold, the whole of it under one bold
    entity. *)
Definition Bold (s : string) : TextWithEntities :=
  match s with
  | EmptyString => {| text := s; entities := [] |}
  | _ => {| text := s;
            entities := [ {| entity_type := EntityBold;
                             entity_offset := 0;
                             entity_length := String.length s |} ] |}
  end.
End Text.
End Ui.

(** A text as the code asks for it: a literal, a phrase [tr::key(tr::now)],
    a phrase with its [lt_user] tag replaced by a text, or a phrase chosen
    and filled by the number [lt_count] (a plural phrase). *)
Inductive Phrase :=
| Literal (s : string)
| Tr (key : LangKey)
| TrUser (key : LangKey) (lt_user : TextWithEntities)
| TrCount (key : LangKey) (lt_count : Z).

(** ** The peer list box and its rows *)

Module PeerListRow.
(** Modelled from the spec: [PeerListRow] (boxes/peer_list_box.h) is not in
    this file.  A row is the spec's normal selectable row (enabled, not
    checked) when it is made, and its disabled-and-checked row after
    [setDisabledState(State::DisabledChecked)]. *)
Inductive State := Active | DisabledChecked.

Record t := {
  peer : PeerId;
  disabledState : State;
  checked : bool
}.

(** [PeerListRow(peer)]. *)
Definition make (p : PeerId) : t :=
  {| peer := p; disabledState := Active; checked := false |}.

Definition setDisabledState (s : State) (r : t) : t :=
  {| peer := peer r; disabledState := s; checked := checked r |}.
End PeerListRow.

(** What the controller asks of its delegate (the box), in order. *)
Inductive DelegateCall :=
| peerListSetTitle (title : Phrase)
| peerListSetAdditionalTitle (additional : string).

(** Modelled from the spec: [PeerListDelegate] (boxes/peer_list_box.h) is not
    in this file.  The two counts the controller reads from it (the rows
    available and the rows selected) and the calls the controller has made
    to it. *)
Record PeerListDelegate := {
  peerListFullRowsCount : Z;
  peerListSelectedRowsCount : Z;
  delegate_calls : list DelegateCall
}.

Definition called (new : list DelegateCall) (d : PeerListDelegate)
    : PeerListDelegate :=
  {| peerListFullRowsCount := peerListFullRowsCount d;
     peerListSelectedRowsCount := peerListSelectedRowsCount d;
     delegate_calls := delegate_calls d ++ new |}.

(** Modelled from the spec: [base::flat_set] (base/flat_set.h) is not in
    this file; a set, unique by identity.  [emplace] gives the set with the
    element and whether the element was new. *)
Definition emplace (u : PeerId) (s : gset PeerId) : gset PeerId * bool :=
  ({[u]} ∪ s, bool_decide (u ∉ s)).

(** The values of a 32-bit [int]. *)
Definition in_int (z : Z) : Prop := -2147483648 <= z <= 2147483647.

(** A sum or difference of [int]s as the program computes it: the result
    modulo 2^32, in the range of [int]. *)
Definition int_wrap (z : Z) : Z :=
  (z + 2147483648) mod 4294967296 - 2147483648.

Definition int_add (a b : Z) : Z := int_wrap (a + b).

Definition int_sub (a b : Z) : Z := int_wrap (a - b).

(** [std::max] of an initializer list of three. *)
Definition std_max3 (a b c : Z) : Z := Z.max (Z.max a b) c.

(** ** InviteController *)

Module InviteController.

Record t := {
  _channel : ChannelData;
  _alreadyIn : gset PeerId;
  _fullInCount : Z;
  _skippedUsers : gset PeerId
}.

Definition with_skippedUsers (skipped : gset PeerId) (c : t) : t :=
  {| _channel := _channel c;
     _alreadyIn := _alreadyIn c;
     _fullInCount := _fullInCount c;
     _skippedUsers := skipped |}.

(** The constructor. *)
Definition make (channel : ChannelData) (alreadyIn : gset PeerId)
    (fullInCount : Z) : t :=
  {| _channel := channel;
     _alreadyIn := alreadyIn;
     _fullInCount := Z.max fullInCount (Z.of_nat (size alreadyIn));
     _skippedUsers := fst (emplace (session_user (session channel)) ∅) |}.

Definition alreadyInCount (c : t) : Z :=
  Z.max (_fullInCount c) (Z.of_nat (size (_alreadyIn c))).

Definition isAlreadyIn (c : t) (user : PeerId) : bool :=
  bool_decide (user ∈ _alreadyIn c).

Definition fullCount (c : t) (d : PeerListDelegate) : Z :=
  int_add (alreadyInCount c) (peerListSelectedRowsCount d).

(** The locals of [updateTitle]. *)
Definition inOrInvited (c : t) (d : PeerListDelegate) : Z :=
  int_sub (fullCount c d) 1.

Definition canBeInvited (c : t) (d : PeerListDelegate) : Z :=
  std_max3
    (peerListFullRowsCount d)
    (int_sub (membersCount (_channel c))
       (Z.of_nat (size (_skippedUsers c))))
    (inOrInvited c d).

Definition additional (c : t) (d : PeerListDelegate) : string :=
  if negb (canBeInvited c d =? 0)
  then QString.arg_int
         (QString.arg_int "%1 / %2" (inOrInvited c d))
         (canBeInvited c d)
  else EmptyString.

Definition updateTitle (c : t) (d : PeerListDelegate) : PeerListDelegate :=
  called [ peerListSetTitle (Tr lng_group_call_invite_title);
           peerListSetAdditionalTitle (additional c d) ] d.

(** [createRow]: the row (or none), the controller with its skipped set
    updated, and the delegate. *)
Definition createRow (c : t) (d : PeerListDelegate) (user : PeerId)
    : option PeerListRow.t * t * PeerListDelegate :=
  let data := session_peer (session (_channel c)) user in
  if isSelf data || isBot data then
    let '(skipped, inserted) := emplace user (_skippedUsers c) in
    let c' := with_skippedUsers skipped c in
    (None, c', if inserted then updateTitle c' d else d)
  else
    let result := PeerListRow.make user in
    (Some (if isAlreadyIn c user
           then PeerListRow.setDisabledState
                  PeerListRow.DisabledChecked result
           else result),
     c, d).

(** [createRow] for the users of a list, one after the other, as the box
    asks for the rows of the users it loads. *)
Fixpoint createRows (c : t) (d : PeerListDelegate) (users : list PeerId)
    : t * PeerListDelegate :=
  match users with
  | [] => (c, d)
  | user :: rest =>
      let '(_, c', d') := createRow c d user in
      createRows c' d' rest
  end.

(** The users [createRow] gives no row: the viewer and the bots. *)
Definition excluded (c : t) (user : PeerId) : bool :=
  isSelf (session_peer (session (_channel c)) user)
  || isBot (session_peer (session (_channel c)) user).

(** The skipped set holds only users that get no row. *)
Definition skippedExcluded (c : InviteController.t) : Prop :=
  forall u, u ∈ _skippedUsers c -> excluded c u = true.

(** What [inviteSelectedUsers] expects of a selected row: its peer is a user
    and is not the viewer. *)
Definition invitable (s : Session) (peer : PeerId) : Prop :=
  isUser (session_peer s peer) = true /\ isSelf (session_peer s peer) = false.

(** The transformation of one selected row in [inviteSelectedUsers]. *)
Definition selectedUser (s : Session) (peer : PeerId) : Result PeerId :=
  _ <-! Expects (isUser (session_peer s peer));
  _ <-! Expects (negb (isSelf (session_peer s peer)));
  Returned peer.

Fixpoint selectedUsers (s : Session) (rows : list PeerId)
    : Result (list PeerId) :=
  match rows with
  | [] => Returned []
  | peer :: rest =>
      user <-! selectedUser s peer;
      users <-! selectedUsers s rest;
      Returned (user :: users)
  end.

(** [inviteSelectedUsers(box, call)], with [rows] the answer of
    [box->peerListCollectSelectedRows()]. *)
Definition inviteSelectedUsers (c : t) (rows : list PeerId)
    (call : GroupCall) : Result (InviteResult * GroupCall) :=
  users <-! selectedUsers (session (_channel c)) rows;
  Returned (inviteUsers users call).

End InviteController.

(** ** LeaveGroupCallBox *)

Module LeaveBox.

(** The box: the call its buttons act on (held both as [call] and as the
    weak pointer [weak]), the [discard] checkbox with its checked state
    (absent when the channel cannot manage the call) and whether
    [closeBox] was called. *)
Record t := {
  call : GroupCallPtr;
  discard : option bool;
  closed : bool
}.

Definition closeBox (box : t) : t :=
  {| call := call box; discard := discard box; closed := true |}.

(** [LeaveGroupCallBox(box, call, discardChecked, context)]. *)
Definition LeaveGroupCallBox (ptr : GroupCallPtr) (c : GroupCall)
    (discardChecked : bool) : t :=
  {| call := ptr;
     discard := if canManageCall (call_channel c)
                then Some discardChecked else None;
     closed := false |}.

(** The callback of the leave button. *)
Definition leaveClicked (box : t) (calls : Calls) : t * Calls :=
  let discardCall :=
    match discard box with
    | Some checked => checked
    | None => false
    end in
  let box := closeBox box in
  match calls !! call box with
  | None => (box, calls)
  | Some c =>
      if discardCall
      then (box, <[call box := performed OpDiscard c]> calls)
      else (box, <[call box := performed OpHangup c]> calls)
  end.

(** The callback of the cancel button. *)
Definition cancelClicked (box : t) : t := closeBox box.

End LeaveBox.

(** ** GroupPanel *)

Inductive Platform := Q_OS_WIN | Q_OS_MAC | Q_OS_OTHER.

Record QRect := {
  rect_x : Z;
  rect_y : Z;
  rect_width : Z;
  rect_height : Z
}.

Module FlatLabel.

(** Modelled from the spec: [Ui::FlatLabel] (ui/widgets/labels.h) is not in
    this file.  The title label: its natural (unconstrained) width, its
    [width()] and [height()], the position given to [moveToLeft] (counted
    from the left edge in a left-to-right layout), and [resizeGetHeight], the
    height the label takes at a width. *)
Record t := {
  naturalWidth : Z;
  resizeGetHeight : Z -> Z;
  width : Z;
  height : Z;
  left : Z;
  top : Z;
  transparentForMouseEvents : bool
}.

Definition resizeToWidth (newWidth : Z) (l : t) : t :=
  {| naturalWidth := naturalWidth l;
     resizeGetHeight := resizeGetHeight l;
     width := newWidth;
     height := resizeGetHeight l newWidth;
     left := left l;
     top := top l;
     transparentForMouseEvents := transparentForMouseEvents l |}.

Definition moveToLeft (x y : Z) (l : t) : t :=
  {| naturalWidth := naturalWidth l;
     resizeGetHeight := resizeGetHeight l;
     width := width l;
     height := height l;
     left := x;
     top := y;
     transparentForMouseEvents := transparentForMouseEvents l |}.

Definition setTransparentForMouseEvents (l : t) : t :=
  {| naturalWidth := naturalWidth l;
     resizeGetHeight := resizeGetHeight l;
     width := width l;
     height := height l;
     left := left l;
     top := top l;
     transparentForMouseEvents := true |}.

End FlatLabel.

(** Modelled from the spec: the styles (styles/style_calls.h) are not in
    this file.  The values of [st::] the layout of the title reads;
    [groupCallHeaderLabel] is the label that style gives the title text. *)
Record Style := {
  callTitleButton_height : Z;
  groupCallMembersMargin_top : Z;
  groupCallHeaderLabel : FlatLabel.t
}.

Inductive MouseButton := LeftButton | RightButton | MiddleButton.

(** The box of the invite controller, as its buttons see it: the selected
    rows ([peerListCollectSelectedRows]) and whether [closeBox] was
    called. *)
Record PeerListBox := {
  peerListCollectSelectedRows : list PeerId;
  box_closed : bool
}.

Definition closeBox (box : PeerListBox) : PeerListBox :=
  {| peerListCollectSelectedRows := peerListCollectSelectedRows box;
     box_closed := true |}.

(** [std::clamp(v, lo, hi)]. *)
Definition std_clamp (v lo hi : Z) : Z :=
  if v <? lo then lo else if hi <? v then hi else v.

(** Modelled from the spec: the styles (styles/style_calls.h) are not in
    this file.  The values of [st::] that [updateControlsGeometry] reads for
    the member list and the buttons. *)
Record GeometryStyle := {
  groupCallWidth : Z;
  groupCallMembersMargin_left : Z;
  groupCallMembersMargin_right : Z;
  groupCallMembersMargin_bottom : Z;
  groupCallMembersWidthMax : Z;
  groupCallMuteBottomSkip : Z;
  groupCallButtonBottomSkip : Z;
  groupCallButtonSkip : Z
}.

(** What [updateControlsGeometry] reads of the widgets it lays out:
    [_members->desiredHeight()], [_mute->innerSize().width()] and
    [_settings->width()]. *)
Record ControlsSizes := {
  members_desiredHeight : Z;
  mute_innerSize_width : Z;
  settings_width : Z
}.

(** What [updateControlsGeometry] sets: the rectangle given to
    [_members->setGeometry], and the points given to [_mute->moveInner],
    [_settings->moveToLeft] and [_hangup->moveToRight]. *)
Record ControlsGeometry := {
  members_geometry : QRect;
  mute_moveInner : Z * Z;
  settings_moveToLeft : Z * Z;
  hangup_moveToRight : Z * Z
}.

Module CallMuteButtonType.
(** Modelled from the spec: the enum [Ui::CallMuteButtonType] of
    ui/widgets/call_mute_button.h is not in this file; its values are the
    four this file names. *)
Inductive t := Connecting | ForceMuted | Muted | Active.
End CallMuteButtonType.

(** The phrases [initWithCall] gives the mute button. *)
Inductive MuteButtonText :=
| lng_group_call_connecting
| lng_group_call_force_muted
| lng_call_unmute_audio
| lng_call_mute_audio.

(** [Ui::CallMuteButtonState]. *)
Record CallMuteButtonState := {
  button_text : MuteButtonText;
  button_type : CallMuteButtonType.t
}.

(** [QEvent::type()], as the event filter of [initWindow] tells events
    apart. *)
Inductive EventType := Close | OtherEvent.

(** [base::EventFilterResult]. *)
Inductive EventFilterResult := Continue | Cancel.

(** [_window], as this file changes it besides its title: hidden by
    [hide()], closed by a close event that was let through. *)
Record Window := {
  window_hidden : bool;
  window_closed : bool
}.

Module GroupPanel.

(** The panel: [_call] (null is [None]), [_channel], the title of
    [_window], the size of [widget()], the geometry of [_controls], the
    label [_title] (a null [object_ptr] is [None]) and the toasts shown
    over [widget()], in order. *)
Record t := {
  platform : Platform;
  st : Style;
  _call : option GroupCallPtr;
  _channel : ChannelData;
  window_title : Phrase;
  widget_width : Z;
  widget_height : Z;
  _controls : QRect;
  _title : option FlatLabel.t;
  toasts : list Phrase
}.

Definition setTitle (title : Phrase) (p : t) : t :=
  {| platform := platform p; st := st p; _call := _call p;
     _channel := _channel p; window_title := title;
     widget_width := widget_width p; widget_height := widget_height p;
     _controls := _controls p; _title := _title p; toasts := toasts p |}.

Definition set_title (title : option FlatLabel.t) (p : t) : t :=
  {| platform := platform p; st := st p; _call := _call p;
     _channel := _channel p; window_title := window_title p;
     widget_width := widget_width p; widget_height := widget_height p;
     _controls := _controls p; _title := title; toasts := toasts p |}.

Definition resized (w h : Z) (p : t) : t :=
  {| platform := platform p; st := st p; _call := _call p;
     _channel := _channel p; window_title := window_title p;
     widget_width := w; widget_height := h;
     _controls := _controls p; _title := _title p; toasts := toasts p |}.

(** [Ui::Toast::Show(widget(), config)]. *)
Definition showToast (text : Phrase) (p : t) : t :=
  {| platform := platform p; st := st p; _call := _call p;
     _channel := _channel p; window_title := window_title p;
     widget_width := widget_width p; widget_height := widget_height p;
     _controls := _controls p; _title := _title p;
     toasts := toasts p ++ [text] |}.

Definition computeMembersListTop (p : t) : Z :=
  match platform p with
  | Q_OS_WIN =>
      callTitleButton_height (st p) + groupCallMembersMargin_top (st p) ÷ 2
  | Q_OS_MAC => groupCallMembersMargin_top (st p) * 2
  | Q_OS_OTHER => groupCallMembersMargin_top (st p)
  end.

Definition computeTitleRect (p : t) : option QRect :=
  match platform p with
  | Q_OS_WIN =>
      Some {| rect_x := 0; rect_y := 0;
              rect_width := rect_x (_controls p);
              rect_height := rect_height (_controls p) |}
  | _ => None
  end.

(** The part of [initWindow] that sets the title of the window. *)
Definition initWindow (p : t) : t :=
  setTitle (match computeTitleRect p with
            | Some _ => Literal " "
            | None => Tr lng_group_call_title
            end) p.

(** The body of [refreshTitle], for the result [titleRect] of
    [computeTitleRect()]. *)
Definition refreshTitleIn (titleRect : option QRect) (p : t) : t :=
  match titleRect with
  | Some titleRect =>
      let p :=
        match _title p with
        | None =>
            setTitle (Literal " ")
              (set_title
                 (Some (FlatLabel.setTransparentForMouseEvents
                          (groupCallHeaderLabel (st p)))) p)
        | Some _ => p
        end in
      match _title p with
      | None => p
      | Some title =>
          let best := FlatLabel.naturalWidth title in
          let from := (widget_width p - best) ÷ 2 in
          let top := (computeMembersListTop p - FlatLabel.height title) ÷ 2 in
          let left := rect_x titleRect in
          if (left <=? from) && (from + best <=? left + rect_width titleRect)
          then
            set_title (Some (FlatLabel.moveToLeft from top
                               (FlatLabel.resizeToWidth best title))) p
          else if rect_width titleRect <? best then
            set_title (Some (FlatLabel.moveToLeft left top
                               (FlatLabel.resizeToWidth
                                  (rect_width titleRect) title))) p
          else if from <? left then
            set_title (Some (FlatLabel.moveToLeft left top
                               (FlatLabel.resizeToWidth best title))) p
          else
            set_title (Some (FlatLabel.moveToLeft
                               (left + rect_width titleRect - best) top
                               (FlatLabel.resizeToWidth best title))) p
      end
  | None =>
      match _title p with
      | Some _ => setTitle (Tr lng_group_call_title) (set_title None p)
      | None => p
      end
  end.

Definition refreshTitle (p : t) : t := refreshTitleIn (computeTitleRect p) p.

(** [updateControlsGeometry]: of the geometry it sets, the title. *)
Definition updateControlsGeometry (p : t) : t :=
  if (widget_width p <? 1) || (widget_height p <? 1) then p
  else refreshTitle p.

(** A change of the size of [widget()]: the handler set by [initWidget]
    runs [updateControlsGeometry] and queues [refreshTitle]. *)
Definition sizeChanged (size : Z * Z) (p : t) : t :=
  refreshTitle (updateControlsGeometry (resized (fst size) (snd size) p)).

(** The label [refreshTitle] places: the one of the panel, or the one it
    creates. *)
Definition titleToPlace (p : GroupPanel.t) : FlatLabel.t :=
  match _title p with
  | Some title => title
  | None => FlatLabel.setTransparentForMouseEvents (groupCallHeaderLabel (st p))
  end.

(** Without a rectangle for the title, a panel that has no label and shows
    the translated title stays so through [refreshTitle]. *)
Definition nativeTitle (p : GroupPanel.t) : Prop :=
  _title p = None /\ window_title p = Tr lng_group_call_title.

(** The panel after any number of changes of size. *)
Definition sizesChanged (sizes : list (Z * Z)) (p : t) : t :=
  fold_left (fun q size => sizeChanged size q) sizes p.

(** The call [_call] points to.  [_call] is set to null before the call is
    destroyed ([closeBeforeDestroy]); a [_call] with no live call reads as
    null. *)
Definition call (p : t) (calls : Calls) : option (GroupCallPtr * GroupCall) :=
  match _call p with
  | Some ptr =>
      match calls !! ptr with
      | Some c => Some (ptr, c)
      | None => None
      end
  | None => None
  end.

(** A click on [_mute], as [initControls] handles it. *)
Definition muteClicked (button : MouseButton) (p : t) (calls : Calls)
    : Calls :=
  match button with
  | LeftButton =>
      match call p calls with
      | Some (ptr, c) =>
          if negb (MuteState.eqb (muted c) MuteState.ForceMuted)
          then <[ptr := setMuted
                          (if MuteState.eqb (muted c) MuteState.Active
                           then MuteState.Muted
                           else MuteState.Active) c]> calls
          else calls
      | None => calls
      end
  | _ => calls
  end.

(** [hangup(discardCallChecked)]: the box shown, if one is. *)
Definition hangup (discardCallChecked : bool) (p : t) (calls : Calls)
    : option LeaveBox.t :=
  match call p calls with
  | Some (ptr, c) => Some (LeaveBox.LeaveGroupCallBox ptr c discardCallChecked)
  | None => None
  end.

(** [addMembers]: the controller of the box shown and the weak pointer
    the invite button of the box holds, if a box is shown. *)
Definition addMembers (p : t) (calls : Calls)
    : option (InviteController.t * GroupCallPtr) :=
  match call p calls, channel_call (_channel p) with
  | Some (ptr, c), Some real =>
      if negb (data_call_id real =? call_id c) then None
      else
        let alreadyIn := invitedToCallUsers (_channel p) (data_call_id real) in
        let alreadyIn :=
          fold_left (fun s user => fst (emplace user s))
            (participants real) alreadyIn in
        let alreadyIn :=
          fst (emplace (session_user (session (_channel p))) alreadyIn) in
        let controller :=
          InviteController.make (_channel p) alreadyIn (data_fullCount real) in
        Some (controller, ptr)
  | _, _ => None
  end.

(** What the invite button does with the result of
    [inviteSelectedUsers]. *)
Definition showInviteResult (result : InviteResult) (p : t) : Result t :=
  match result with
  | InvitedUser user =>
      Returned
        (showToast
           (TrUser lng_group_call_invite_done_user
              (Ui.Text.Bold
                 (firstName (session_peer (session (_channel p)) user)))) p)
  | InvitedCount count =>
      Returned
        (if 0 <? count
         then showToast (TrCount lng_group_call_invite_done_many count) p
         else p)
  | Valueless => Fatal "Result in GroupCall::inviteUsers."
  end.

(** The callback of the invite button of the box of [addMembers]. *)
Definition inviteClicked (weak : GroupCallPtr)
    (controller : InviteController.t) (box : PeerListBox)
    (p : t) (calls : Calls) : Result (PeerListBox * t * Calls) :=
  match calls !! weak with
  | Some c =>
      invited <-! InviteController.inviteSelectedUsers
                    controller (peerListCollectSelectedRows box) c;
      p' <-! showInviteResult (fst invited) p;
      Returned (closeBox box, p', <[weak := snd invited]> calls)
  | None => Returned (closeBox box, p, calls)
  end.

(** The width and the left edge [refreshTitle] gives a label of natural
    width [best] in a widget of width [w], for the rectangle [r]. *)
Definition placement (best w : Z) (r : QRect) : Z * Z :=
  let from := (w - best) ÷ 2 in
  if (rect_x r <=? from) && (from + best <=? rect_x r + rect_width r)
  then (best, from)
  else if rect_width r <? best then (rect_width r, rect_x r)
  else if from <? rect_x r then (best, rect_x r)
  else (best, rect_x r + rect_width r - best).

(** [updateControlsGeometry]: the geometry it gives the member list and the
    buttons, or none when the size of [widget()] is empty. *)
Definition controlsGeometry (gs : GeometryStyle) (sizes : ControlsSizes)
    (p : t) : option ControlsGeometry :=
  if (widget_width p <? 1) || (widget_height p <? 1) then None
  else
    let desiredHeight := members_desiredHeight sizes in
    let membersWidthAvailable :=
      widget_width p
      - groupCallMembersMargin_left gs - groupCallMembersMargin_right gs in
    let membersWidthMin :=
      groupCallWidth gs
      - groupCallMembersMargin_left gs - groupCallMembersMargin_right gs in
    let membersWidth :=
      std_clamp membersWidthAvailable membersWidthMin
        (groupCallMembersWidthMax gs) in
    let muteTop := widget_height p - groupCallMuteBottomSkip gs in
    let buttonsTop := widget_height p - groupCallButtonBottomSkip gs in
    let membersTop := computeMembersListTop p in
    let availableHeight :=
      muteTop - membersTop - groupCallMembersMargin_bottom gs in
    let muteSize := mute_innerSize_width sizes in
    let fullWidth :=
      muteSize + 2 * settings_width sizes + 2 * groupCallButtonSkip gs in
    Some {| members_geometry :=
              {| rect_x := (widget_width p - membersWidth) ÷ 2;
                 rect_y := membersTop;
                 rect_width := membersWidth;
                 rect_height := Z.min desiredHeight availableHeight |};
            mute_moveInner := ((widget_width p - muteSize) ÷ 2, muteTop);
            settings_moveToLeft :=
              ((widget_width p - fullWidth) ÷ 2, buttonsTop);
            hangup_moveToRight :=
              ((widget_width p - fullWidth) ÷ 2, buttonsTop) |}.

(** The state [initWithCall] gives the mute button for the mute state of
    the call and for whether the call is being created, joined or
    connected. *)
Definition muteButtonState (mute : MuteState.t) (connecting : bool)
    : CallMuteButtonState :=
  {| button_text :=
       if connecting then lng_group_call_connecting
       else if MuteState.eqb mute MuteState.ForceMuted
       then lng_group_call_force_muted
       else if negb (MuteState.eqb mute MuteState.Active)
       then lng_call_unmute_audio
       else lng_call_mute_audio;
     button_type :=
       if connecting then CallMuteButtonType.Connecting
       else if MuteState.eqb mute MuteState.ForceMuted
       then CallMuteButtonType.ForceMuted
       else if MuteState.eqb mute MuteState.Muted
       then CallMuteButtonType.Muted
       else CallMuteButtonType.Active |}.

Definition set_call (new_call : option GroupCallPtr) (channel : ChannelData)
    (p : t) : t :=
  {| platform := platform p; st := st p; _call := new_call;
     _channel := channel; window_title := window_title p;
     widget_width := widget_width p; widget_height := widget_height p;
     _controls := _controls p; _title := _title p; toasts := toasts p |}.

(** [initWithCall(call)]: what it assigns.  The channel is read through the
    new [_call]; a pointer with no live call leaves it as it is. *)
Definition initWithCall (new_call : option GroupCallPtr) (p : t)
    (calls : Calls) : t :=
  match new_call with
  | None => set_call None (_channel p) p
  | Some ptr =>
      match calls !! ptr with
      | Some c => set_call (Some ptr) (call_channel c) p
      | None => set_call (Some ptr) (_channel p) p
      end
  end.

(** The handler [initWithCall] sets for the mute requests of the member
    list. *)
Definition toggleMuteRequested (user : PeerId) (mute : bool) (p : t)
    (calls : Calls) : Calls :=
  match call p calls with
  | Some (ptr, c) => <[ptr := performed (OpToggleMute user mute) c]> calls
  | None => calls
  end.

Definition handleClose (p : t) (w : Window) : bool * Window :=
  match _call p with
  | Some _ =>
      (true, {| window_hidden := true; window_closed := window_closed w |})
  | None => (false, w)
  end.

(** The event filter [initWindow] installs on [_window]. *)
Definition closeEventFilter (e : EventType) (p : t) (w : Window)
    : EventFilterResult * Window :=
  match e with
  | Close =>
      let '(handled, w') := handleClose p w in
      if handled then (Cancel, w') else (Continue, w')
  | OtherEvent => (Continue, w)
  end.

(** [_window->close()]: the close event goes through the filter; an event
    the filter lets through closes the window, which hides it. *)
Definition closeWindow (p : t) (w : Window) : Window :=
  match closeEventFilter Close p w with
  | (Continue, _) => {| window_hidden := true; window_closed := true |}
  | (Cancel, w') => w'
  end.

Definition closeBeforeDestroy (p : t) (w : Window) (calls : Calls)
    : t * Window :=
  let w' := closeWindow p w in
  (initWithCall None p calls, w').

End GroupPanel.

(** ** A small session, used to run the definitions *)

Module Sample.

(** Peer 1 is the viewer, 2 and 4 are users, 3 is a bot, 5 is a chat. *)
Definition peers (p : PeerId) : PeerData :=
  match p with
  | 1%positive =>
      {| isUser := true; isSelf := true; isBot := false; firstName := "Me" |}
  | 2%positive =>
      {| isUser := true; isSelf := false; isBot := false;
         firstName := "Alice" |}
  | 3%positive =>
      {| isUser := true; isSelf := false; isBot := true;
         firstName := "Helper" |}
  | 5%positive =>
      {| isUser := false; isSelf := false; isBot := false; firstName := "" |}
  | _ =>
      {| isUser := true; isSelf := false; isBot := false; firstName := "Bob" |}
  end.

Definition main_session : Session :=
  {| session_user := 1%positive; session_peer := peers |}.

Definition real : DataGroupCall :=
  {| data_call_id := 77; participants := [2%positive]; data_fullCount := 2 |}.

Definition channel : ChannelData :=
  {| membersCount := 10;
     session := main_session;
     channel_call := Some real;
     invitedToCallUsers := fun _ => ∅;
     canManageCall := true |}.

Definition group_call : GroupCall :=
  {| call_id := 77;
     call_channel := channel;
     muted := MuteState.Active;
     inviteUsers_result := fun users =>
       match users with
       | [user] => InvitedUser user
       | _ => InvitedCount (Z.of_nat (length users))
       end;
     call_ops := [] |}.

Definition calls : gmap positive GroupCall := {[ 9%positive := group_call ]}.

Definition delegate : PeerListDelegate :=
  {| peerListFullRowsCount := 3;
     peerListSelectedRowsCount := 1;
     delegate_calls := [] |}.


Definition label : FlatLabel.t :=
  {| FlatLabel.naturalWidth := 200;
     FlatLabel.resizeGetHeight := fun _ => 20;
     FlatLabel.width := 200;
     FlatLabel.height := 20;
     FlatLabel.left := 0;
     FlatLabel.top := 0;
     FlatLabel.transparentForMouseEvents := false |}.

Definition style : Style :=
  {| callTitleButton_height := 24;
     groupCallMembersMargin_top := 16;
     groupCallHeaderLabel := label |}.

Definition panel (os : Platform) : GroupPanel.t :=
  {| GroupPanel.platform := os;
     GroupPanel.st := style;
     GroupPanel._call := Some 9%positive;
     GroupPanel._channel := channel;
     GroupPanel.window_title := Literal "";
     GroupPanel.widget_width := 800;
     GroupPanel.widget_height := 600;
     GroupPanel._controls :=
       {| rect_x := 150; rect_y := 0; rect_width := 100; rect_height := 24 |};
     GroupPanel._title := None;
     GroupPanel.toasts := [] |}.

Definition geometry_style : GeometryStyle :=
  {| groupCallWidth := 380;
     groupCallMembersMargin_left := 16;
     groupCallMembersMargin_right := 16;
     groupCallMembersMargin_bottom := 28;
     groupCallMembersWidthMax := 600;
     groupCallMuteBottomSkip := 160;
     groupCallButtonBottomSkip := 145;
     groupCallButtonSkip := 43 |}.

Definition sizes : ControlsSizes :=
  {| members_desiredHeight := 900;
     mute_innerSize_width := 100;
     settings_width := 60 |}.

Definition shown_window : Window :=
  {| window_hidden := false; window_closed := false |}.

End Sample.

(** * Properties *)

(** ** The counter text *)

Section QStringFacts.

Import QString.

Lemma append_cons (c : ascii) (s t : string) :
  String.append (String c s) t = String c (String.append s t).
Proof. reflexivity. Qed.

Lemma append_empty (s : string) : String.append s EmptyString = s.
Proof.
  induction s as [|c s IH]; [reflexivity|].
  rewrite append_cons, IH. reflexivity.
Qed.

Lemma hasPercent_uint (d : Decimal.uint) :
  hasPercent (NilEmpty.string_of_uint d) = false.
Proof. induction d; simpl; assumption || reflexivity. Qed.

Lemma hasPercent_number (n : Z) : hasPercent (number n) = false.
Proof.
  unfold number.
  destruct (Z.to_int n) as [d|d]; simpl;
    destruct d; simpl; try reflexivity; apply hasPercent_uint.
Qed.

Lemma findArgEscapes_app (s t : string) :
  hasPercent s = false ->
  findArgEscapes (String.append s t) = findArgEscapes t.
Proof.
  induction s as [|c s IH]; [reflexivity|].
  rewrite append_cons. simpl.
  intros [Hc Hs]%orb_false_elim. rewrite Hc. auto.
Qed.

Lemma replaceArgEscapes_app (escape : nat) (a s t : string) :
  hasPercent s = false ->
  replaceArgEscapes escape a O (String.append s t)
  = String.append s (replaceArgEscapes escape a O t).
Proof.
  induction s as [|c s IH]; [reflexivity|].
  rewrite !append_cons. simpl.
  intros [Hc Hs]%orb_false_elim. rewrite Hc. f_equal. auto.
Qed.

(** The two [arg] calls of [updateTitle] write the two numbers around
    [" / "]. *)
Lemma arg_counter (x y : Z) :
  arg_int (arg_int "%1 / %2" x) y
  = String.append (number x) (String.append " / " (number y)).
Proof.
  unfold arg_int.
  change (arg "%1 / %2" (number x)) with (String.append (number x) " / %2").
  unfold arg.
  rewrite findArgEscapes_app by apply hasPercent_number.
  change (findArgEscapes " / %2") with (Some 2%nat). cbv beta iota.
  rewrite replaceArgEscapes_app by apply hasPercent_number.
  change (replaceArgEscapes 2 (number y) 0 " / %2")
    with (String.append " / " (String.append (number y) EmptyString)).
  rewrite append_empty. reflexivity.
Qed.

End QStringFacts.

Section Counter.

Import InviteController.

Lemma additional_shown (c : InviteController.t) (d : PeerListDelegate) :
  canBeInvited c d <> 0 ->
  additional c d
  = String.append (QString.number (inOrInvited c d))
      (String.append " / " (QString.number (canBeInvited c d))).
Proof.
  intros H. unfold additional.
  destruct (Z.eqb_spec (canBeInvited c d) 0) as [E|_]; [contradiction|].
  apply arg_counter.
Qed.

Lemma additional_hidden (c : InviteController.t) (d : PeerListDelegate) :
  canBeInvited c d = 0 -> additional c d = EmptyString.
Proof. intros H. unfold additional. rewrite H. reflexivity. Qed.

Lemma canBeInvited_max (c : InviteController.t) (d : PeerListDelegate) :
  canBeInvited c d
  = Z.max (peerListFullRowsCount d)
      (Z.max (int_sub (membersCount (_channel c))
                (Z.of_nat (size (_skippedUsers c))))
         (inOrInvited c d)).
Proof. unfold canBeInvited, std_max3. lia. Qed.

Lemma int_wrap_in_int (z : Z) : in_int z -> int_wrap z = z.
Proof.
  unfold in_int, int_wrap. intros H.
  rewrite Z.mod_small by lia. lia.
Qed.

Lemma inOrInvited_in_int (c : InviteController.t) (d : PeerListDelegate) :
  in_int (alreadyInCount c + peerListSelectedRowsCount d) ->
  in_int (alreadyInCount c + peerListSelectedRowsCount d - 1) ->
  inOrInvited c d = alreadyInCount c + peerListSelectedRowsCount d - 1.
Proof.
  intros Hsum Hminus. unfold inOrInvited, fullCount, int_sub, int_add.
  rewrite (int_wrap_in_int _ Hsum). apply int_wrap_in_int, Hminus.
Qed.


(** The already-in count does not decrease when the already-in set
    grows. *)
Lemma alreadyInCount_mono (channel : ChannelData) (A B : gset positive)
    (f : Z) :
  A ⊆ B ->
  alreadyInCount (make channel A f) <= alreadyInCount (make channel B f).
Proof.
  intros H. apply subseteq_size in H.
  unfold alreadyInCount, make. simpl. lia.
Qed.

End Counter.




(** C9.  Whenever [updateTitle] shows a counter that is not empty, the
    counter is "inOrInvited / canBeInvited" with
    [canBeInvited >= inOrInvited] and, the full-rows count being a count,
    [canBeInvited >= 0]: the denominator is never below the numerator. *)
Theorem counter_denominator_bounds
    (c : InviteController.t) (d : PeerListDelegate) (shown : string) :
  0 <= peerListFullRowsCount d ->
  InviteController.updateTitle c d
  = called [ peerListSetTitle (Tr lng_group_call_invite_title);
             peerListSetAdditionalTitle shown ] d ->
  shown <> EmptyString ->
  shown
  = String.append (QString.number (InviteController.inOrInvited c d))
      (String.append " / "
         (QString.number (InviteController.canBeInvited c d)))
  /\ InviteController.inOrInvited c d <= InviteController.canBeInvited c d
  /\ 0 <= InviteController.canBeInvited c d.
Proof.
  intros Hr Hrun Hshown.
  assert (Htext : InviteController.additional c d = shown).
  { unfold InviteController.updateTitle, called in Hrun.
    apply (f_equal delegate_calls) in Hrun. simpl in Hrun.
    apply app_inv_head in Hrun. congruence. }
  pose proof (canBeInvited_max c d) as Hmax.
  split; [|lia].
  rewrite <- Htext. apply additional_shown. intros Hz.
  apply Hshown. rewrite <- Htext. apply additional_hidden, Hz.
Qed.

Lemma counter_denominator_bounds_witness :
  let c := InviteController.make Sample.channel {[1%positive; 2%positive]} 1 in
  let d := Sample.delegate in
  "2 / 9"%string
  = String.append (QString.number (InviteController.inOrInvited c d))
      (String.append " / "
         (QString.number (InviteController.canBeInvited c d)))
  /\ InviteController.inOrInvited c d <= InviteController.canBeInvited c d
  /\ 0 <= InviteController.canBeInvited c d.
Proof.
  intros c d. apply (counter_denominator_bounds c d "2 / 9").
  - simpl. lia.
  - vm_compute. reflexivity.
  - discriminate.
Defined.

(** ** The title *)

Section Title.

Import GroupPanel.

Lemma computeTitleRect_platform (p q : GroupPanel.t) :
  platform q = platform p ->
  computeTitleRect p = None -> computeTitleRect q = None.
Proof.
  unfold computeTitleRect. intros ->. destruct (platform p); congruence.
Qed.

Lemma refreshTitleIn_some (titleRect : QRect) (p : GroupPanel.t) :
  let title := titleToPlace p in
  let b := FlatLabel.naturalWidth title in
  let centeredX := (widget_width p - b) ÷ 2 in
  let left := rect_x titleRect in
  let width := rect_width titleRect in
  let top := (computeMembersListTop p - FlatLabel.height title) ÷ 2 in
  let q := match _title p with
           | Some _ => p
           | None => setTitle (Literal " ") (set_title (Some title) p)
           end in
  refreshTitleIn (Some titleRect) p
  = set_title
      (Some
         (if (left <=? centeredX) && (centeredX + b <=? left + width)
          then FlatLabel.moveToLeft centeredX top
                 (FlatLabel.resizeToWidth b title)
          else if width <? b
          then FlatLabel.moveToLeft left top
                 (FlatLabel.resizeToWidth width title)
          else if centeredX <? left
          then FlatLabel.moveToLeft left top (FlatLabel.resizeToWidth b title)
          else FlatLabel.moveToLeft (left + width - b) top
                 (FlatLabel.resizeToWidth b title))) q.
Proof.
  unfold refreshTitleIn, titleToPlace.
  destruct (_title p) as [l|] eqn:E; simpl; [rewrite E|];
    repeat match goal with |- context [if ?c then _ else _] => destruct c end;
    reflexivity.
Qed.

Lemma refreshTitle_platform (p : GroupPanel.t) :
  platform (refreshTitle p) = platform p.
Proof.
  unfold refreshTitle.
  destruct (computeTitleRect p) as [r|].
  - rewrite refreshTitleIn_some. destruct (_title p); reflexivity.
  - unfold refreshTitleIn. destruct (_title p); reflexivity.
Qed.

Lemma updateControlsGeometry_platform (p : GroupPanel.t) :
  platform (updateControlsGeometry p) = platform p.
Proof.
  unfold updateControlsGeometry.
  destruct (_ || _); [reflexivity | apply refreshTitle_platform].
Qed.

Lemma refreshTitle_nativeTitle (p : GroupPanel.t) :
  computeTitleRect p = None ->
  _title p <> None \/ window_title p = Tr lng_group_call_title ->
  nativeTitle (refreshTitle p).
Proof.
  unfold nativeTitle, refreshTitle. intros -> H.
  unfold refreshTitleIn. destruct (_title p) as [l|] eqn:E; simpl.
  - split; reflexivity.
  - destruct H as [H|H]; [contradiction|]. split; assumption.
Qed.

Lemma sizeChanged_nativeTitle (size : Z * Z) (p : GroupPanel.t) :
  computeTitleRect p = None ->
  _title p <> None \/ window_title p = Tr lng_group_call_title ->
  nativeTitle (sizeChanged size p).
Proof.
  intros Hrect H. unfold sizeChanged.
  set (q := resized (fst size) (snd size) p).
  assert (Hq : computeTitleRect q = None)
    by (apply (computeTitleRect_platform p); [reflexivity | exact Hrect]).
  assert (Hu : computeTitleRect (updateControlsGeometry q) = None)
    by (apply (computeTitleRect_platform q);
        [apply updateControlsGeometry_platform | exact Hq]).
  apply refreshTitle_nativeTitle; [exact Hu|].
  unfold updateControlsGeometry. destruct (_ || _); [exact H|].
  right. apply refreshTitle_nativeTitle; assumption.
Qed.

Lemma sizeChanged_rect (size : Z * Z) (p : GroupPanel.t) :
  computeTitleRect p = None -> computeTitleRect (sizeChanged size p) = None.
Proof.
  intros H. apply (computeTitleRect_platform p); [|exact H].
  unfold sizeChanged.
  rewrite refreshTitle_platform, updateControlsGeometry_platform.
  reflexivity.
Qed.

Lemma sizesChanged_nativeTitle (sizes : list (Z * Z)) (p : GroupPanel.t) :
  computeTitleRect p = None ->
  nativeTitle p -> nativeTitle (sizesChanged sizes p).
Proof.
  unfold sizesChanged. revert p.
  induction sizes as [|size sizes IH]; intros p Hrect Hp; simpl; [exact Hp|].
  apply IH.
  - apply sizeChanged_rect, Hrect.
  - apply sizeChanged_nativeTitle; [exact Hrect|]. right. apply Hp.
Qed.

End Title.

(** C2.  With a rectangle [titleRect] = [left, left + width) reserved for
    the title, [refreshTitle] gives the label (the one the panel has, or the
    one it creates) its natural width [b] at [x = centeredX],
    [centeredX = (w - b) / 2], when [centeredX >= left] and
    [centeredX + b <= left + width]; otherwise, when [width < b], the width
    [width] at [x = left]; otherwise, when [centeredX < left], the width [b]
    at [x = left]; otherwise the width [b] at [x = left + width - b].  The
    vertical position is [(membersListTop - labelHeight) / 2].  For a panel
    of width 800, a label of natural width 200 and the rectangle [0, 150)
    the label has width 150 at [x = 0]. *)
Theorem refreshTitle_placement (p : GroupPanel.t) (titleRect : QRect) :
  let title :=
    match GroupPanel._title p with
    | Some title => title
    | None => FlatLabel.setTransparentForMouseEvents
                (groupCallHeaderLabel (GroupPanel.st p))
    end in
  let b := FlatLabel.naturalWidth title in
  let centeredX := (GroupPanel.widget_width p - b) ÷ 2 in
  let left := rect_x titleRect in
  let width := rect_width titleRect in
  let fits := left <= centeredX /\ centeredX + b <= left + width in
  (exists placed,
     GroupPanel._title (GroupPanel.refreshTitleIn (Some titleRect) p)
     = Some placed
     /\ FlatLabel.top placed
        = (GroupPanel.computeMembersListTop p - FlatLabel.height title) ÷ 2
     /\ (fits ->
         FlatLabel.width placed = b /\ FlatLabel.left placed = centeredX)
     /\ (~ fits -> width < b ->
         FlatLabel.width placed = width /\ FlatLabel.left placed = left)
     /\ (~ fits -> b <= width -> centeredX < left ->
         FlatLabel.width placed = b /\ FlatLabel.left placed = left)
     /\ (~ fits -> b <= width -> left <= centeredX ->
         FlatLabel.width placed = b
         /\ FlatLabel.left placed = left + width - b))
  /\ (exists placed,
        GroupPanel._title (GroupPanel.refreshTitle (Sample.panel Q_OS_WIN))
        = Some placed
        /\ GroupPanel.widget_width (Sample.panel Q_OS_WIN) = 800
        /\ FlatLabel.naturalWidth placed = 200
        /\ GroupPanel.computeTitleRect (Sample.panel Q_OS_WIN)
           = Some {| rect_x := 0; rect_y := 0;
                     rect_width := 150; rect_height := 24 |}
        /\ FlatLabel.width placed = 150 /\ FlatLabel.left placed = 0).
Proof.
  intros title b centeredX left width fits. split.
  - rewrite refreshTitleIn_some. cbv zeta.
    change (GroupPanel.titleToPlace p) with title.
    fold b. fold centeredX. fold left. fold width.
    eexists. split; [reflexivity|].
    destruct (Z.leb_spec left centeredX) as [H1|H1];
      destruct (Z.leb_spec (centeredX + b) (left + width)) as [H2|H2];
      destruct (Z.ltb_spec width b) as [H3|H3];
      destruct (Z.ltb_spec centeredX left) as [H4|H4];
      simpl; unfold fits; repeat split; intros; try reflexivity; lia.
  - eexists. repeat split; reflexivity.
Qed.

Lemma refreshTitle_placement_witness :
  exists placed,
    GroupPanel._title (GroupPanel.refreshTitle (Sample.panel Q_OS_WIN))
    = Some placed
    /\ FlatLabel.width placed = 150 /\ FlatLabel.left placed = 0.
Proof.
  destruct (proj1 (refreshTitle_placement (Sample.panel Q_OS_WIN)
                     {| rect_x := 0; rect_y := 0;
                        rect_width := 150; rect_height := 24 |}))
    as (placed & Hplaced & _ & _ & Hshrink & _).
  exists placed. split; [exact Hplaced|].
  apply Hshrink.
  - intros [_ H]. vm_compute in H. apply H. reflexivity.
  - reflexivity.
Defined.

(** The second example of the specification: a panel 800 wide, a label of
    natural width 100 and the rectangle [0, 500) give the label its natural
    width at [x = 350]. *)
Example refreshTitle_centered :
  let label :=
    FlatLabel.resizeToWidth 100
      {| FlatLabel.naturalWidth := 100;
         FlatLabel.resizeGetHeight := fun _ => 20;
         FlatLabel.width := 0; FlatLabel.height := 0;
         FlatLabel.left := 0; FlatLabel.top := 0;
         FlatLabel.transparentForMouseEvents := true |} in
  let placed :=
    GroupPanel._title
      (GroupPanel.refreshTitleIn
         (Some {| rect_x := 0; rect_y := 0;
                  rect_width := 500; rect_height := 24 |})
         (GroupPanel.set_title (Some label) (Sample.panel Q_OS_WIN))) in
  FlatLabel.width <$> placed = Some 100
  /\ FlatLabel.left <$> placed = Some 350.
Proof. split; reflexivity. Qed.

(** C7.  On a platform that reserves no rectangle for the title,
    [refreshTitle] leaves the panel with no title label, destroying the one
    it has, and the window then has the translated title of the group call;
    a panel set up by [initWindow] has no label and the translated title of
    the group call after every layout pass. *)
Theorem refreshTitle_without_rect
    (p : GroupPanel.t) (sizes : list (Z * Z)) :
  GroupPanel.computeTitleRect p = None ->
  (GroupPanel._title (GroupPanel.refreshTitle p) = None
   /\ (GroupPanel._title p <> None ->
       GroupPanel.window_title (GroupPanel.refreshTitle p)
       = Tr lng_group_call_title))
  /\ (GroupPanel._title p = None ->
      let q := GroupPanel.sizesChanged sizes (GroupPanel.initWindow p) in
      GroupPanel._title q = None
      /\ GroupPanel.window_title q = Tr lng_group_call_title).
Proof.
  intros Hrect. split.
  - split.
    + unfold GroupPanel.refreshTitle. rewrite Hrect.
      unfold GroupPanel.refreshTitleIn.
      destruct (GroupPanel._title p) eqn:E; [reflexivity | exact E].
    + intros Hlabel.
      apply (refreshTitle_nativeTitle p Hrect). left. exact Hlabel.
  - intros Hnone q. subst q.
    apply sizesChanged_nativeTitle.
    + apply (computeTitleRect_platform p); [reflexivity | exact Hrect].
    + unfold GroupPanel.nativeTitle, GroupPanel.initWindow.
      rewrite Hrect. split; [exact Hnone | reflexivity].
Qed.

Lemma refreshTitle_without_rect_witness :
  let q := GroupPanel.sizesChanged [(640, 480); (0, 0); (900, 700)]
             (GroupPanel.initWindow (Sample.panel Q_OS_MAC)) in
  GroupPanel._title q = None
  /\ GroupPanel.window_title q = Tr lng_group_call_title.
Proof.
  apply (refreshTitle_without_rect (Sample.panel Q_OS_MAC)
           [(640, 480); (0, 0); (900, 700)]); reflexivity.
Defined.

(** ** The mute button *)

Lemma muteClicked_call (p : GroupPanel.t) (calls : gmap positive GroupCall)
    (ptr : positive) (c : GroupCall) :
  GroupPanel._call p = Some ptr -> calls !! ptr = Some c ->
  GroupPanel.muteClicked LeftButton p calls
  = match muted c with
    | MuteState.ForceMuted => calls
    | MuteState.Active => <[ptr := setMuted MuteState.Muted c]> calls
    | MuteState.Muted => <[ptr := setMuted MuteState.Active c]> calls
    end.
Proof.
  intros Hp Hc. unfold GroupPanel.muteClicked, GroupPanel.call.
  rewrite Hp, Hc. destruct (muted c); reflexivity.
Qed.

(** C10.  A click of the left button on the mute button changes nothing
    when [_call] is null or the call is [ForceMuted]; otherwise it sets the
    mute state of the call to [Muted] when it is [Active] and to [Active] in
    every other case, and changes nothing else. *)
Theorem muteClicked_left
    (p : GroupPanel.t) (calls : gmap positive GroupCall) :
  (GroupPanel._call p = None ->
   GroupPanel.muteClicked LeftButton p calls = calls)
  /\ (forall ptr c,
        GroupPanel._call p = Some ptr -> calls !! ptr = Some c ->
        muted c = MuteState.ForceMuted ->
        GroupPanel.muteClicked LeftButton p calls = calls)
  /\ (forall ptr c,
        GroupPanel._call p = Some ptr -> calls !! ptr = Some c ->
        muted c <> MuteState.ForceMuted ->
        GroupPanel.muteClicked LeftButton p calls
        = <[ptr := setMuted
                     (if MuteState.eqb (muted c) MuteState.Active
                      then MuteState.Muted else MuteState.Active) c]> calls
        /\ (muted c = MuteState.Active ->
            muted <$> GroupPanel.muteClicked LeftButton p calls !! ptr
            = Some MuteState.Muted)
        /\ (muted c <> MuteState.Active ->
            muted <$> GroupPanel.muteClicked LeftButton p calls !! ptr
            = Some MuteState.Active)).
Proof.
  split; [|split].
  - intros Hp. unfold GroupPanel.muteClicked, GroupPanel.call.
    rewrite Hp. reflexivity.
  - intros ptr c Hp Hc Hm. rewrite (muteClicked_call p calls ptr c Hp Hc), Hm.
    reflexivity.
  - intros ptr c Hp Hc Hm. rewrite (muteClicked_call p calls ptr c Hp Hc).
    destruct (muted c) eqn:E; try contradiction; simpl;
      rewrite lookup_insert_eq; simpl; repeat split; intros;
      try reflexivity; congruence.
Qed.

Lemma muteClicked_left_witness :
  muted <$> GroupPanel.muteClicked LeftButton
              (Sample.panel Q_OS_WIN) Sample.calls !! 9%positive
  = Some MuteState.Muted.
Proof.
  refine (proj1 (proj2 (proj2 (proj2 (muteClicked_left
            (Sample.panel Q_OS_WIN) Sample.calls))
          9%positive Sample.group_call _ _ _)) _);
    (reflexivity || discriminate).
Defined.

(** ** Submitting the invites *)

Section Invites.

Import InviteController.

Lemma selectedUser_invitable (s : Session) (peer : positive) :
  invitable s peer -> selectedUser s peer = Returned peer.
Proof. intros [Hu Hs]. unfold selectedUser. rewrite Hu, Hs. reflexivity. Qed.

Lemma selectedUser_fatal (s : Session) (peer : positive) :
  ~ invitable s peer -> exists m, selectedUser s peer = Fatal m.
Proof.
  unfold invitable, selectedUser. intros H.
  destruct (isUser (session_peer s peer)); simpl; [|eauto].
  destruct (isSelf (session_peer s peer)); simpl; [eauto|].
  exfalso. apply H. split; reflexivity.
Qed.

Lemma invitable_dec (s : Session) (peer : positive) :
  {invitable s peer} + {~ invitable s peer}.
Proof.
  unfold invitable.
  destruct (isUser (session_peer s peer)), (isSelf (session_peer s peer));
    (left; split; reflexivity) || (right; intros [? ?]; discriminate).
Qed.

Lemma selectedUsers_invitable (s : Session) (rows : list positive) :
  Forall (invitable s) rows -> selectedUsers s rows = Returned rows.
Proof.
  induction 1 as [|peer rows Hpeer _ IH]; simpl; [reflexivity|].
  rewrite (selectedUser_invitable s peer Hpeer). simpl.
  rewrite IH. reflexivity.
Qed.

Lemma selectedUsers_fatal (s : Session) (rows : list positive) :
  ~ Forall (invitable s) rows -> exists m, selectedUsers s rows = Fatal m.
Proof.
  induction rows as [|peer rows IH]; intros H.
  - exfalso. apply H. constructor.
  - simpl. destruct (invitable_dec s peer) as [Hpeer|Hpeer].
    + rewrite (selectedUser_invitable s peer Hpeer). simpl.
      destruct IH as [m Hm].
      * intros Hrows. apply H. constructor; assumption.
      * rewrite Hm. simpl. eauto.
    + destruct (selectedUser_fatal s peer Hpeer) as [m Hm].
      rewrite Hm. simpl. eauto.
Qed.

Lemma inviteSelectedUsers_invitable (c : InviteController.t)
    (rows : list positive) (call : GroupCall) :
  Forall (invitable (session (_channel c))) rows ->
  inviteSelectedUsers c rows call
  = Returned (inviteUsers_result call rows, performed (OpInviteUsers rows) call).
Proof.
  intros H. unfold inviteSelectedUsers.
  rewrite (selectedUsers_invitable _ rows H). reflexivity.
Qed.

End Invites.

(** C6.  [inviteSelectedUsers] expects every selected row to be a user other
    than the viewer.  When that holds, no assertion fails: the function calls
    [inviteUsers] of the call with the list of the selected users, in order,
    once, and returns what [inviteUsers] returned.  When it does not hold,
    the function ends in a failed assertion and returns nothing. *)
Theorem inviteSelectedUsers_contract
    (c : InviteController.t) (rows : list positive) (call : GroupCall) :
  let s := session (InviteController._channel c) in
  (Forall (InviteController.invitable s) rows ->
   InviteController.inviteSelectedUsers c rows call
   = Returned (inviteUsers_result call rows, snd (inviteUsers rows call))
   /\ call_ops (snd (inviteUsers rows call))
      = call_ops call ++ [OpInviteUsers rows])
  /\ (~ Forall (InviteController.invitable s) rows ->
      exists m, InviteController.inviteSelectedUsers c rows call = Fatal m).
Proof.
  intros s. split.
  - intros H. split; [|reflexivity].
    apply inviteSelectedUsers_invitable, H.
  - intros H. unfold InviteController.inviteSelectedUsers.
    destruct (selectedUsers_fatal s rows H) as [m Hm].
    fold s. rewrite Hm. simpl. eauto.
Qed.

Lemma inviteSelectedUsers_contract_witness :
  InviteController.inviteSelectedUsers
    (InviteController.make Sample.channel {[1%positive]} 1)
    [2%positive; 4%positive] Sample.group_call
  = Returned (InvitedCount 2,
              snd (inviteUsers [2%positive; 4%positive] Sample.group_call))
  /\ call_ops (snd (inviteUsers [2%positive; 4%positive] Sample.group_call))
     = [OpInviteUsers [2%positive; 4%positive]].
Proof.
  apply (proj1 (inviteSelectedUsers_contract
                  (InviteController.make Sample.channel {[1%positive]} 1)
                  [2%positive; 4%positive] Sample.group_call)).
  repeat constructor.
Defined.

(** C8.  When the call a callback holds weakly is gone, the callback of the
    leave button and the callback of the invite button close their box and
    do nothing else: no call is discarded, hung up or asked to invite, and
    no notification is shown. *)
Theorem expired_call_no_operation
    (weak : positive) (controller : InviteController.t) (box : PeerListBox)
    (leave : LeaveBox.t) (p : GroupPanel.t) (calls : gmap positive GroupCall) :
  calls !! weak = None ->
  LeaveBox.call leave = weak ->
  GroupPanel.inviteClicked weak controller box p calls
  = Returned (closeBox box, p, calls)
  /\ LeaveBox.leaveClicked leave calls = (LeaveBox.closeBox leave, calls).
Proof.
  intros Hgone Hleave. split.
  - unfold GroupPanel.inviteClicked. rewrite Hgone. reflexivity.
  - unfold LeaveBox.leaveClicked. simpl. rewrite Hleave, Hgone. reflexivity.
Qed.

Lemma expired_call_no_operation_witness :
  let box := {| peerListCollectSelectedRows := [2%positive];
                box_closed := false |} in
  let leave := {| LeaveBox.call := 8%positive;
                  LeaveBox.discard := Some true;
                  LeaveBox.closed := false |} in
  GroupPanel.inviteClicked 8%positive
    (InviteController.make Sample.channel {[1%positive]} 1) box
    (Sample.panel Q_OS_WIN) Sample.calls
  = Returned (closeBox box, Sample.panel Q_OS_WIN, Sample.calls)
  /\ LeaveBox.leaveClicked leave Sample.calls
     = (LeaveBox.closeBox leave, Sample.calls).
Proof.
  intros box leave.
  apply (expired_call_no_operation 8%positive
           (InviteController.make Sample.channel {[1%positive]} 1) box leave
           (Sample.panel Q_OS_WIN) Sample.calls); reflexivity.
Defined.

(** C4.  With the call alive and the selected rows as expected, the invite
    button shows, for the result of [inviteUsers]: for a single user, one
    notification, the phrase "invite done user" with the first name of the
    user in bold; for a count [n], one notification, the plural phrase
    "invite done many" for [n], when [n > 0], and no notification when
    [n <= 0]; for a result that is neither, nothing: the program ends in
    [Unexpected]. *)
Theorem invite_result_notification
    (weak : positive) (controller : InviteController.t) (box : PeerListBox)
    (p : GroupPanel.t) (calls : gmap positive GroupCall) (c : GroupCall) :
  let rows := peerListCollectSelectedRows box in
  calls !! weak = Some c ->
  Forall (InviteController.invitable
            (session (InviteController._channel controller))) rows ->
  match inviteUsers_result c rows with
  | InvitedUser user =>
      exists p',
        GroupPanel.inviteClicked weak controller box p calls
        = Returned (closeBox box, p', <[weak := snd (inviteUsers rows c)]> calls)
        /\ GroupPanel.toasts p'
           = GroupPanel.toasts p
             ++ [ TrUser lng_group_call_invite_done_user
                    (Ui.Text.Bold
                       (firstName
                          (session_peer (session (GroupPanel._channel p))
                             user))) ]
  | InvitedCount n =>
      exists p',
        GroupPanel.inviteClicked weak controller box p calls
        = Returned (closeBox box, p', <[weak := snd (inviteUsers rows c)]> calls)
        /\ (0 < n ->
            GroupPanel.toasts p'
            = GroupPanel.toasts p
              ++ [ TrCount lng_group_call_invite_done_many n ])
        /\ (n <= 0 -> GroupPanel.toasts p' = GroupPanel.toasts p)
  | Valueless =>
      exists m,
        GroupPanel.inviteClicked weak controller box p calls = Fatal m
  end.
Proof.
  intros rows Hc Hrows.
  unfold GroupPanel.inviteClicked. rewrite Hc. fold rows.
  rewrite (inviteSelectedUsers_invitable controller rows c Hrows). simpl.
  destruct (inviteUsers_result c rows) as [n|user|]; simpl.
  - destruct (Z.ltb_spec 0 n) as [Hn|Hn]; eexists;
      (split; [reflexivity|]); split; intros; try reflexivity; lia.
  - eexists. split; reflexivity.
  - eexists. reflexivity.
Qed.

Lemma invite_result_notification_witness :
  let box := {| peerListCollectSelectedRows := [2%positive];
                box_closed := false |} in
  exists p',
    GroupPanel.inviteClicked 9%positive
      (InviteController.make Sample.channel {[1%positive]} 1) box
      (Sample.panel Q_OS_WIN) Sample.calls
    = Returned (closeBox box, p',
                <[9%positive := snd (inviteUsers [2%positive] Sample.group_call)]>
                  Sample.calls)
    /\ GroupPanel.toasts p'
       = [ TrUser lng_group_call_invite_done_user (Ui.Text.Bold "Alice") ].
Proof.
  intros box.
  apply (invite_result_notification 9%positive
           (InviteController.make Sample.channel {[1%positive]} 1) box
           (Sample.panel Q_OS_WIN) Sample.calls Sample.group_call).
  - reflexivity.
  - repeat constructor.
Defined.

(** ** The rows of the invite box *)

Section Rows.

Import InviteController.

Lemma with_skippedUsers_same (c : InviteController.t) :
  with_skippedUsers (_skippedUsers c) c = c.
Proof. destruct c. reflexivity. Qed.

Lemma createRow_excluded (c : InviteController.t) (d : PeerListDelegate)
    (u : positive) :
  excluded c u = true ->
  createRow c d u
  = (None,
     with_skippedUsers ({[u]} ∪ _skippedUsers c) c,
     if bool_decide (u ∉ _skippedUsers c)
     then updateTitle (with_skippedUsers ({[u]} ∪ _skippedUsers c) c) d
     else d).
Proof.
  unfold excluded, createRow. intros ->. reflexivity.
Qed.

Lemma createRow_row (c : InviteController.t) (d : PeerListDelegate)
    (u : positive) :
  excluded c u = false ->
  createRow c d u
  = (Some {| PeerListRow.peer := u;
             PeerListRow.disabledState :=
               if bool_decide (u ∈ _alreadyIn c)
               then PeerListRow.DisabledChecked else PeerListRow.Active;
             PeerListRow.checked := false |},
     c, d).
Proof.
  unfold excluded, createRow, isAlreadyIn. intros ->.
  destruct (bool_decide (u ∈ _alreadyIn c)); reflexivity.
Qed.

(** A second [createRow] for a skipped user changes nothing. *)
Lemma createRow_skipped (c : InviteController.t) (d : PeerListDelegate)
    (u : positive) :
  excluded c u = true -> u ∈ _skippedUsers c ->
  createRow c d u = (None, c, d).
Proof.
  intros He Hin. rewrite (createRow_excluded c d u He).
  assert (Hset : {[u]} ∪ _skippedUsers c = _skippedUsers c)
    by (apply subseteq_union_1_L, singleton_subseteq_l, Hin).
  rewrite Hset, with_skippedUsers_same.
  rewrite bool_decide_eq_false_2 by (intros Hn; exact (Hn Hin)).
  reflexivity.
Qed.

Lemma createRow_frame (c : InviteController.t) (d : PeerListDelegate)
    (u : positive) :
  _channel (createRow c d u).1.2 = _channel c
  /\ _alreadyIn (createRow c d u).1.2 = _alreadyIn c
  /\ _skippedUsers c ⊆ _skippedUsers (createRow c d u).1.2.
Proof.
  destruct (excluded c u) eqn:He.
  - rewrite (createRow_excluded c d u He). simpl.
    repeat split; try reflexivity. apply union_subseteq_r.
  - rewrite (createRow_row c d u He). simpl. repeat split; reflexivity.
Qed.

Lemma createRows_frame (users : list positive) (c : InviteController.t)
    (d : PeerListDelegate) :
  _channel (createRows c d users).1 = _channel c
  /\ _alreadyIn (createRows c d users).1 = _alreadyIn c
  /\ _skippedUsers c ⊆ _skippedUsers (createRows c d users).1.
Proof.
  revert c d. induction users as [|u users IH]; intros c d; simpl.
  - repeat split; reflexivity.
  - pose proof (createRow_frame c d u) as (Hch & Hin & Hsk).
    destruct (createRow c d u) as [[row c'] d']. simpl in *.
    destruct (IH c' d') as (Hch' & Hin' & Hsk').
    rewrite Hch', Hin', Hch, Hin. repeat split; try reflexivity.
    etrans; eassumption.
Qed.

Lemma make_skippedExcluded (channel : ChannelData) (A : gset positive)
    (f : Z) :
  isSelf (session_peer (session channel) (session_user (session channel)))
  = true ->
  skippedExcluded (make channel A f).
Proof.
  intros Hself u. unfold make, emplace, excluded. simpl.
  intros [Hu|Hu]%elem_of_union.
  - apply elem_of_singleton in Hu as ->. rewrite Hself. reflexivity.
  - apply elem_of_empty in Hu as [].
Qed.

Lemma createRow_skippedExcluded (c : InviteController.t)
    (d : PeerListDelegate) (u : positive) :
  skippedExcluded c -> skippedExcluded (createRow c d u).1.2.
Proof.
  intros Hinv. destruct (excluded c u) eqn:He.
  - rewrite (createRow_excluded c d u He). simpl.
    intros v Hv. unfold with_skippedUsers in Hv. simpl in Hv.
    apply elem_of_union in Hv as [Hv|Hv].
    + apply elem_of_singleton in Hv as ->. exact He.
    + apply (Hinv v Hv).
  - rewrite (createRow_row c d u He). exact Hinv.
Qed.

Lemma createRows_skippedExcluded (users : list positive)
    (c : InviteController.t) (d : PeerListDelegate) :
  skippedExcluded c -> skippedExcluded (createRows c d users).1.
Proof.
  revert c d. induction users as [|u users IH]; intros c d Hinv; simpl.
  - exact Hinv.
  - pose proof (createRow_skippedExcluded c d u Hinv) as Hnext.
    destruct (createRow c d u) as [[row c'] d']. apply IH, Hnext.
Qed.

End Rows.

(** C3.  [createRow] for the viewer or a bot returns no row and leaves the
    user in the skipped set; it refreshes the title exactly when the user
    was not in the set yet, and a later [createRow] for the same user,
    whatever rows were created in between, changes nothing and refreshes
    nothing.  For every other user it changes nothing and returns a row for
    the user: disabled and checked when the user is in the already-in set,
    active and not checked otherwise. *)
Theorem createRow_cases
    (c : InviteController.t) (d : PeerListDelegate) (u : positive)
    (between : list positive) :
  let data := session_peer (session (InviteController._channel c)) u in
  let row := (InviteController.createRow c d u).1.1 in
  let c' := (InviteController.createRow c d u).1.2 in
  let d' := (InviteController.createRow c d u).2 in
  let later := InviteController.createRows c' d' between in
  (isSelf data = true \/ isBot data = true ->
   row = None
   /\ c' = InviteController.with_skippedUsers
             ({[u]} ∪ InviteController._skippedUsers c) c
   /\ (u ∉ InviteController._skippedUsers c ->
       d' = InviteController.updateTitle c' d)
   /\ (u ∈ InviteController._skippedUsers c -> c' = c /\ d' = d)
   /\ InviteController.createRow c' d' u = (None, c', d')
   /\ InviteController.createRow later.1 later.2 u
      = (None, later.1, later.2))
  /\ (isSelf data = false -> isBot data = false ->
      c' = c /\ d' = d
      /\ (u ∈ InviteController._alreadyIn c ->
          row = Some {| PeerListRow.peer := u;
                        PeerListRow.disabledState :=
                          PeerListRow.DisabledChecked;
                        PeerListRow.checked := false |})
      /\ (u ∉ InviteController._alreadyIn c ->
          row = Some {| PeerListRow.peer := u;
                        PeerListRow.disabledState := PeerListRow.Active;
                        PeerListRow.checked := false |})).
Proof.
  intros data row c' d' later. split.
  - intros Hdata.
    assert (He : InviteController.excluded c u = true).
    { unfold InviteController.excluded. fold data.
      destruct Hdata as [-> | ->]; [reflexivity | apply orb_true_r]. }
    subst later row. subst c' d'.
    rewrite (createRow_excluded c d u He). simpl.
    set (c' := InviteController.with_skippedUsers _ c).
    set (d' := if bool_decide _ then _ else _).
    assert (He' : InviteController.excluded c' u = true) by exact He.
    assert (Hin' : u ∈ InviteController._skippedUsers c')
      by (apply elem_of_union_l, elem_of_singleton; reflexivity).
    split; [reflexivity|]. split; [reflexivity|].
    split; [|split; [|split]].
    + intros Hnew. subst d'. rewrite bool_decide_eq_true_2 by exact Hnew.
      reflexivity.
    + intros Hold. pose proof (createRow_skipped c d u He Hold) as Hsame.
      rewrite (createRow_excluded c d u He) in Hsame.
      fold c' d' in Hsame. split; congruence.
    + apply createRow_skipped; assumption.
    + destruct (createRows_frame between c' d') as (Hch & _ & Hsk).
      apply createRow_skipped.
      * unfold InviteController.excluded. rewrite Hch. exact He'.
      * apply Hsk, Hin'.
  - intros Hself Hbot.
    assert (He : InviteController.excluded c u = false).
    { unfold InviteController.excluded. fold data.
      rewrite Hself, Hbot. reflexivity. }
    subst row c' d'. rewrite (createRow_row c d u He). simpl.
    split; [reflexivity|]. split; [reflexivity|]. split; intros H.
    + rewrite bool_decide_eq_true_2 by exact H. reflexivity.
    + rewrite bool_decide_eq_false_2 by exact H. reflexivity.
Qed.

Lemma createRow_cases_witness :
  let c := InviteController.make Sample.channel {[1%positive; 2%positive]} 2 in
  (InviteController.createRow c Sample.delegate 3%positive).1.1 = None
  /\ (InviteController.createRow c Sample.delegate 3%positive).2
     = InviteController.updateTitle
         (InviteController.createRow c Sample.delegate 3%positive).1.2
         Sample.delegate
  /\ (InviteController.createRow c Sample.delegate 2%positive).1.1
     = Some {| PeerListRow.peer := 2%positive;
               PeerListRow.disabledState := PeerListRow.DisabledChecked;
               PeerListRow.checked := false |}.
Proof.
  intros c.
  pose proof (createRow_cases c Sample.delegate 3%positive []) as [Hbot _].
  pose proof (createRow_cases c Sample.delegate 2%positive []) as [_ Huser].
  destruct Hbot as (Hrow & _ & Hnew & _); [right; reflexivity|].
  destruct Huser as (_ & _ & Hin & _); [reflexivity | reflexivity|].
  split; [exact Hrow|]. split.
  - apply Hnew.
    change (3%positive ∉ ({[1%positive]} ∪ ∅ : gset positive)).
    intros [H|H]%elem_of_union.
    + apply elem_of_singleton in H. discriminate H.
    + apply elem_of_empty in H as [].
  - apply Hin.
    change (2%positive ∈ ({[1%positive; 2%positive]} : gset positive)).
    apply elem_of_union_r, elem_of_singleton. reflexivity.
Defined.

(** C5, as the code has it.  In a session whose own user is flagged as the
    viewer, for a controller built by the constructor and after any rows
    were created, [createRow] puts a user in exactly one of three states: no
    row, and the user is the viewer or a bot and is in the skipped set; a
    disabled and checked row, and the user is neither the viewer nor a bot,
    is in the already-in set and is not in the skipped set; an active row,
    and the user is neither the viewer nor a bot and is in neither set.  The
    viewer is in the skipped set from the construction on. *)
Theorem presented_in_one_state
    (channel : ChannelData) (A : gset positive) (f : Z)
    (d : PeerListDelegate) (users : list positive) (u : positive) :
  isSelf (session_peer (session channel) (session_user (session channel)))
  = true ->
  let before :=
    InviteController.createRows (InviteController.make channel A f) d users in
  let row := (InviteController.createRow before.1 before.2 u).1.1 in
  let c' := (InviteController.createRow before.1 before.2 u).1.2 in
  InviteController._alreadyIn c' = A
  /\ session_user (session channel) ∈ InviteController._skippedUsers c'
  /\ match row with
     | None =>
         (isSelf (session_peer (session channel) u) = true
          \/ isBot (session_peer (session channel) u) = true)
         /\ u ∈ InviteController._skippedUsers c'
     | Some r =>
         isSelf (session_peer (session channel) u) = false
         /\ isBot (session_peer (session channel) u) = false
         /\ PeerListRow.peer r = u
         /\ PeerListRow.checked r = false
         /\ (u ∉ InviteController._skippedUsers c')
         /\ ((PeerListRow.disabledState r = PeerListRow.DisabledChecked
              /\ u ∈ A)
             \/ (PeerListRow.disabledState r = PeerListRow.Active
                 /\ u ∉ A))
     end.
Proof.
  intros Hself before row c'.
  set (c0 := InviteController.make channel A f) in *.
  destruct (createRows_frame users c0 d) as (Hch & Hin & Hsk).
  pose proof (createRows_skippedExcluded users c0 d
                (make_skippedExcluded channel A f Hself)) as Hinv.
  fold before in Hch, Hin, Hsk, Hinv.
  destruct (createRow_frame before.1 before.2 u) as (_ & Hin' & Hsk').
  fold c' in Hin', Hsk'.
  assert (Hex : InviteController.excluded before.1 u
                = isSelf (session_peer (session channel) u)
                  || isBot (session_peer (session channel) u)).
  { unfold InviteController.excluded. rewrite Hch. reflexivity. }
  split; [rewrite Hin', Hin; reflexivity|]. split.
  - apply Hsk', Hsk. unfold c0, InviteController.make, emplace. simpl.
    apply elem_of_union_l, elem_of_singleton. reflexivity.
  - subst row c'.
    destruct (InviteController.excluded before.1 u) eqn:He.
    + rewrite (createRow_excluded _ _ u He). simpl. split.
      * symmetry in Hex. apply orb_true_iff in Hex. exact Hex.
      * apply elem_of_union_l, elem_of_singleton. reflexivity.
    + rewrite (createRow_row _ _ u He). simpl.
      symmetry in Hex. apply orb_false_iff in Hex as [Hs Hb].
      split; [exact Hs|]. split; [exact Hb|].
      split; [reflexivity|]. split; [reflexivity|]. split.
      * intros Hu. apply Hinv in Hu. congruence.
      * rewrite Hin. destruct (decide (u ∈ A)) as [HA|HA].
        -- left. rewrite bool_decide_eq_true_2 by exact HA. auto.
        -- right. rewrite bool_decide_eq_false_2 by exact HA. auto.
Qed.

Lemma presented_in_one_state_witness :
  let before :=
    InviteController.createRows
      (InviteController.make Sample.channel {[1%positive; 2%positive]} 2)
      Sample.delegate [1%positive; 3%positive; 2%positive] in
  (exists r,
     (InviteController.createRow before.1 before.2 4%positive).1.1 = Some r
     /\ PeerListRow.disabledState r = PeerListRow.Active
     /\ 4%positive ∉ InviteController._skippedUsers
                       (InviteController.createRow before.1 before.2
                          4%positive).1.2)
  /\ (InviteController.createRow before.1 before.2 3%positive).1.1 = None
  /\ 3%positive ∈ InviteController._skippedUsers
                    (InviteController.createRow before.1 before.2
                       3%positive).1.2
  /\ 1%positive ∈ InviteController._skippedUsers
                    (InviteController.createRow before.1 before.2
                       4%positive).1.2.
Proof.
  intros before.
  pose proof (presented_in_one_state Sample.channel
                {[1%positive; 2%positive]} 2 Sample.delegate
                [1%positive; 3%positive; 2%positive] 4%positive eq_refl)
    as (_ & Hself & Huser).
  pose proof (presented_in_one_state Sample.channel
                {[1%positive; 2%positive]} 2 Sample.delegate
                [1%positive; 3%positive; 2%positive] 3%positive eq_refl)
    as (_ & _ & Hbot).
  cbv zeta in Huser, Hbot. fold before in Huser, Hbot, Hself.
  assert (Hrow4 : (InviteController.createRow before.1 before.2
                     4%positive).1.1
                  = Some (PeerListRow.make 4%positive))
    by (vm_compute; reflexivity).
  assert (Hrow3 : (InviteController.createRow before.1 before.2
                     3%positive).1.1 = None)
    by (vm_compute; reflexivity).
  rewrite Hrow4 in Huser. rewrite Hrow3 in Hbot.
  destruct Huser as (_ & _ & _ & _ & Hnot & _).
  destruct Hbot as (_ & Hin).
  split.
  - exists (PeerListRow.make 4%positive).
    split; [exact Hrow4|]. split; [reflexivity | exact Hnot].
  - split; [exact Hrow3|]. split; [exact Hin | exact Hself].
Defined.

(** Whenever [addMembers] shows its box, the viewer is in the already-in set
    and in the skipped set of the controller. *)
Lemma addMembers_viewer_in_both
    (p : GroupPanel.t) (calls : gmap positive GroupCall)
    (c : InviteController.t) (weak : positive) :
  GroupPanel.addMembers p calls = Some (c, weak) ->
  session_user (session (GroupPanel._channel p))
    ∈ InviteController._alreadyIn c
  /\ session_user (session (GroupPanel._channel p))
      ∈ InviteController._skippedUsers c.
Proof.
  unfold GroupPanel.addMembers.
  destruct (GroupPanel.call p calls) as [[ptr call]|]; [|discriminate].
  destruct (channel_call (GroupPanel._channel p)) as [real|]; [|discriminate].
  destruct (negb _); [discriminate|].
  intros [= <- _]. simpl.
  split; apply elem_of_union_l, elem_of_singleton; reflexivity.
Qed.

(** C5, as the specification has it, fails: the controller [addMembers]
    builds has the viewer both in its already-in set and in its skipped
    set. *)
Lemma alreadyIn_and_skipped_overlap :
  exists c weak,
    GroupPanel.addMembers (Sample.panel Q_OS_WIN) Sample.calls = Some (c, weak)
    /\ ~ (forall u, ~ (u ∈ InviteController._alreadyIn c
                      /\ u ∈ InviteController._skippedUsers c)).
Proof.
  eexists _, _. split; [reflexivity|].
  intros H. apply (H 1%positive). split.
  - apply elem_of_union_l, elem_of_singleton. reflexivity.
  - apply elem_of_union_l, elem_of_singleton. reflexivity.
Qed.

Example number_42 : QString.number 42 = "42"%string.
Proof. reflexivity. Qed.

Example number_neg : QString.number (-7) = "-7"%string.
Proof. reflexivity. Qed.

Example number_0 : QString.number 0 = "0"%string.
Proof. reflexivity. Qed.

Example arg_twice :
  QString.arg_int (QString.arg_int "%1 / %2" 3) 12 = "3 / 12"%string.
Proof. reflexivity. Qed.

Example arg_lowest_first :
  QString.arg (QString.arg "%2-%1-%L2" "a") "b" = "b-a-b"%string.
Proof. reflexivity. Qed.

Example arg_two_digits :
  QString.arg "%12 %1" "x" = "%12 x"%string.
Proof. reflexivity. Qed.

(** * More of the panel *)

(** ** The title inside its rectangle *)

Section TitleMore.

Import GroupPanel.

Lemma sizeChanged_platform (size : Z * Z) (p : GroupPanel.t) :
  platform (sizeChanged size p) = platform p.
Proof.
  unfold sizeChanged.
  rewrite refreshTitle_platform, updateControlsGeometry_platform.
  reflexivity.
Qed.

Lemma refreshTitle_windows (p : GroupPanel.t) :
  platform p = Q_OS_WIN ->
  (exists l, _title (refreshTitle p) = Some l)
  /\ (window_title p = Literal " " ->
      window_title (refreshTitle p) = Literal " ").
Proof.
  intros Hos. unfold refreshTitle, computeTitleRect. rewrite Hos.
  rewrite refreshTitleIn_some. cbv zeta. split.
  - eexists. reflexivity.
  - intros Hblank. destruct (_title p); simpl; [exact Hblank | reflexivity].
Qed.

Lemma sizeChanged_windows (size : Z * Z) (p : GroupPanel.t) :
  platform p = Q_OS_WIN ->
  (exists l, _title (sizeChanged size p) = Some l)
  /\ (window_title p = Literal " " ->
      window_title (sizeChanged size p) = Literal " ").
Proof.
  intros Hos. unfold sizeChanged.
  set (q := resized (fst size) (snd size) p).
  assert (Hq : platform (updateControlsGeometry q) = Q_OS_WIN)
    by (rewrite updateControlsGeometry_platform; exact Hos).
  destruct (refreshTitle_windows _ Hq) as [Hlabel Htitle].
  split; [exact Hlabel|]. intros Hblank. apply Htitle.
  unfold updateControlsGeometry. destruct (_ || _); [exact Hblank|].
  apply (refreshTitle_windows q Hos). exact Hblank.
Qed.

Lemma refreshTitleIn_placed (titleRect : QRect) (p : GroupPanel.t) :
  exists placed,
    _title (refreshTitleIn (Some titleRect) p) = Some placed
    /\ FlatLabel.naturalWidth placed = FlatLabel.naturalWidth (titleToPlace p)
    /\ (FlatLabel.width placed, FlatLabel.left placed)
       = placement (FlatLabel.naturalWidth (titleToPlace p))
           (widget_width p) titleRect
    /\ widget_width (refreshTitleIn (Some titleRect) p) = widget_width p
    /\ window_title (refreshTitleIn (Some titleRect) p)
       = match _title p with
         | Some _ => window_title p
         | None => Literal " "
         end.
Proof.
  rewrite refreshTitleIn_some. cbv zeta. unfold placement.
  eexists. split; [reflexivity|].
  split; [|split; [|split]].
  - repeat match goal with |- context [if ?c then _ else _] => destruct c end;
      reflexivity.
  - repeat match goal with |- context [if ?c then _ else _] => destruct c end;
      reflexivity.
  - destruct (_title p); reflexivity.
  - destruct (_title p); reflexivity.
Qed.

End TitleMore.

(** X1.  With a rectangle reserved for the title, the label [refreshTitle]
    places always lies inside the rectangle, whatever the widths are: its
    left edge is not before the rectangle's, its right edge is not after the
    rectangle's, and its width is the smaller of its natural width and the
    width of the rectangle. *)
Theorem refreshTitle_inside_rect (p : GroupPanel.t) (titleRect : QRect) :
  let best := FlatLabel.naturalWidth (GroupPanel.titleToPlace p) in
  exists placed,
    GroupPanel._title (GroupPanel.refreshTitleIn (Some titleRect) p)
    = Some placed
    /\ FlatLabel.naturalWidth placed = best
    /\ FlatLabel.width placed = Z.min best (rect_width titleRect)
    /\ rect_x titleRect <= FlatLabel.left placed
    /\ FlatLabel.left placed + FlatLabel.width placed
       <= rect_x titleRect + rect_width titleRect.
Proof.
  intros best. rewrite refreshTitleIn_some. cbv zeta. fold best.
  eexists. split; [reflexivity|].
  destruct (Z.leb_spec (rect_x titleRect)
              ((GroupPanel.widget_width p - best) ÷ 2)) as [H1|H1];
    destruct (Z.leb_spec ((GroupPanel.widget_width p - best) ÷ 2 + best)
                (rect_x titleRect + rect_width titleRect)) as [H2|H2];
    destruct (Z.ltb_spec (rect_width titleRect) best) as [H3|H3];
    destruct (Z.ltb_spec ((GroupPanel.widget_width p - best) ÷ 2)
                (rect_x titleRect)) as [H4|H4];
    simpl; repeat split; try reflexivity; lia.
Qed.

(** X2.  A second [refreshTitle] with the same rectangle and the same size
    of the widget keeps the label where the first one put it horizontally
    (same width, same left edge) and keeps the title of the window. *)
Theorem refreshTitle_second_pass (p : GroupPanel.t) (titleRect : QRect) :
  let once := GroupPanel.refreshTitleIn (Some titleRect) p in
  let twice := GroupPanel.refreshTitleIn (Some titleRect) once in
  GroupPanel.window_title twice = GroupPanel.window_title once
  /\ exists first second,
       GroupPanel._title once = Some first
       /\ GroupPanel._title twice = Some second
       /\ FlatLabel.width second = FlatLabel.width first
       /\ FlatLabel.left second = FlatLabel.left first.
Proof.
  intros once twice.
  destruct (refreshTitleIn_placed titleRect p)
    as (first & Hfirst & Hnat1 & Hplace1 & Hwidth1 & _).
  destruct (refreshTitleIn_placed titleRect once)
    as (second & Hsecond & Hnat2 & Hplace2 & _ & Htitle2).
  fold once in Hfirst, Hwidth1. fold twice in Hsecond, Htitle2.
  assert (Hto : GroupPanel.titleToPlace once = first)
    by (unfold GroupPanel.titleToPlace; rewrite Hfirst; reflexivity).
  rewrite Hto, Hwidth1, Hnat1, <- Hplace1 in Hplace2.
  rewrite Hfirst in Htitle2.
  split; [exact Htitle2|].
  exists first, second. repeat split; congruence.
Qed.

(** X3.  On Windows, where the title has its rectangle, the window set up by
    [initWindow] keeps a blank native title through every layout pass, and
    after any layout pass the panel has its own title label. *)
Theorem windows_native_title_blank
    (p : GroupPanel.t) (sizes : list (Z * Z)) :
  GroupPanel.platform p = Q_OS_WIN ->
  let q := GroupPanel.sizesChanged sizes (GroupPanel.initWindow p) in
  GroupPanel.window_title q = Literal " "
  /\ (sizes <> [] -> exists l, GroupPanel._title q = Some l).
Proof.
  intros Hos q. subst q.
  assert (Hinit : GroupPanel.platform (GroupPanel.initWindow p) = Q_OS_WIN
                  /\ GroupPanel.window_title (GroupPanel.initWindow p)
                     = Literal " ").
  { unfold GroupPanel.initWindow, GroupPanel.computeTitleRect.
    rewrite Hos. split; [exact Hos | reflexivity]. }
  destruct Hinit as [Hos' Hblank].
  generalize dependent (GroupPanel.initWindow p). clear p Hos.
  unfold GroupPanel.sizesChanged.
  induction sizes as [|size sizes IH] using rev_ind; intros q Hos Hblank.
  - split; [exact Hblank | congruence].
  - rewrite fold_left_app. simpl.
    destruct (IH q Hos Hblank) as [Hblank' _].
    assert (Hos' : GroupPanel.platform
                     (fold_left (fun q0 size0 => GroupPanel.sizeChanged size0 q0)
                        sizes q) = Q_OS_WIN).
    { clear IH Hblank Hblank'. revert q Hos.
      induction sizes as [|s sizes IHs]; intros q Hos; simpl; [exact Hos|].
      apply IHs. rewrite sizeChanged_platform. exact Hos. }
    destruct (sizeChanged_windows size _ Hos') as [Hlabel Htitle].
    split; [apply Htitle, Hblank' | intros _; exact Hlabel].
Qed.

Lemma windows_native_title_blank_witness :
  let q := GroupPanel.sizesChanged [(640, 480); (0, 0)]
             (GroupPanel.initWindow (Sample.panel Q_OS_WIN)) in
  GroupPanel.window_title q = Literal " "
  /\ exists l, GroupPanel._title q = Some l.
Proof.
  intros q.
  destruct (windows_native_title_blank (Sample.panel Q_OS_WIN)
              [(640, 480); (0, 0)] eq_refl) as [Hblank Hlabel].
  split; [exact Hblank | apply Hlabel; discriminate].
Defined.

(** ** The member list and the buttons *)

(** X4.  When the widget is not empty and at least as wide as the minimum
    width of the panel, [updateControlsGeometry] gives the member list a
    width between the minimum and the maximum of the style that also fits
    between the margins, puts it inside the widget horizontally, at the top
    [computeMembersListTop()], no higher than it wants to be, and ending at
    least the bottom margin above the top of the mute button. *)
Theorem members_geometry_bounds
    (gs : GeometryStyle) (sizes : ControlsSizes) (p : GroupPanel.t)
    (g : ControlsGeometry) :
  GroupPanel.controlsGeometry gs sizes p = Some g ->
  0 <= groupCallMembersMargin_left gs ->
  0 <= groupCallMembersMargin_right gs ->
  groupCallWidth gs <= GroupPanel.widget_width p ->
  groupCallWidth gs
  - groupCallMembersMargin_left gs - groupCallMembersMargin_right gs
  <= groupCallMembersWidthMax gs ->
  let m := members_geometry g in
  (groupCallWidth gs
   - groupCallMembersMargin_left gs - groupCallMembersMargin_right gs
   <= rect_width m <= groupCallMembersWidthMax gs)
  /\ rect_width m
     <= GroupPanel.widget_width p
        - groupCallMembersMargin_left gs - groupCallMembersMargin_right gs
  /\ 0 <= rect_x m
  /\ rect_x m + rect_width m <= GroupPanel.widget_width p
  /\ rect_y m = GroupPanel.computeMembersListTop p
  /\ rect_height m <= members_desiredHeight sizes
  /\ rect_y m + rect_height m + groupCallMembersMargin_bottom gs
     <= snd (mute_moveInner g).
Proof.
  unfold GroupPanel.controlsGeometry.
  destruct (_ || _); [discriminate|].
  intros [= <-] Hl Hr Hw Hminmax. simpl.
  unfold std_clamp.
  destruct (Z.ltb_spec
              (GroupPanel.widget_width p - groupCallMembersMargin_left gs
               - groupCallMembersMargin_right gs)
              (groupCallWidth gs - groupCallMembersMargin_left gs
               - groupCallMembersMargin_right gs)) as [H1|H1];
    [lia|].
  destruct (Z.ltb_spec (groupCallMembersWidthMax gs)
              (GroupPanel.widget_width p - groupCallMembersMargin_left gs
               - groupCallMembersMargin_right gs)) as [H2|H2];
    repeat split; try reflexivity; try lia;
    try (apply Z.quot_pos; lia);
    try (match goal with
         | |- ?a ÷ 2 + ?b <= ?w =>
             assert (a ÷ 2 <= a) by (apply Z.quot_le_upper_bound; lia); lia
         end).
Qed.

Lemma members_geometry_bounds_witness :
  exists g,
    GroupPanel.controlsGeometry Sample.geometry_style Sample.sizes
      (Sample.panel Q_OS_WIN) = Some g
    /\ 348 <= rect_width (members_geometry g) <= 600
    /\ 0 <= rect_x (members_geometry g)
    /\ rect_x (members_geometry g) + rect_width (members_geometry g) <= 800
    /\ rect_y (members_geometry g) + rect_height (members_geometry g) + 28
       <= snd (mute_moveInner g).
Proof.
  eexists. split; [reflexivity|].
  destruct (members_geometry_bounds Sample.geometry_style Sample.sizes
              (Sample.panel Q_OS_WIN) _ eq_refl)
    as (Hw & _ & Hx & Hr & _ & _ & Hb);
    [simpl; lia | simpl; lia | simpl; lia | simpl; lia |].
  repeat split; [apply Hw | apply Hw | exact Hx | exact Hr | exact Hb].
Defined.

(** X5.  When the widget is wide enough for the mute button, two buttons as
    wide as the settings button and the two skips between them,
    [updateControlsGeometry] puts the settings button so that it ends
    exactly one skip before the inner area of the mute button begins, gives
    the hang up button the same distance from the right edge as the settings
    button has from the left edge, and a hang up button as wide as the
    settings button begins one skip, or one skip and a pixel, after the
    inner area of the mute button ends. *)
Theorem buttons_around_mute
    (gs : GeometryStyle) (sizes : ControlsSizes) (p : GroupPanel.t)
    (g : ControlsGeometry) :
  GroupPanel.controlsGeometry gs sizes p = Some g ->
  0 <= settings_width sizes ->
  0 <= groupCallButtonSkip gs ->
  mute_innerSize_width sizes + 2 * settings_width sizes
  + 2 * groupCallButtonSkip gs <= GroupPanel.widget_width p ->
  let x := fst (settings_moveToLeft g) in
  let mute_left := fst (mute_moveInner g) in
  let mute_right := mute_left + mute_innerSize_width sizes in
  let hangup_left := GroupPanel.widget_width p - x - settings_width sizes in
  0 <= x
  /\ hangup_moveToRight g = settings_moveToLeft g
  /\ x + settings_width sizes + groupCallButtonSkip gs = mute_left
  /\ groupCallButtonSkip gs <= hangup_left - mute_right
     <= groupCallButtonSkip gs + 1.
Proof.
  unfold GroupPanel.controlsGeometry.
  destruct (_ || _); [discriminate|].
  intros [= <-] Hs Hk Hw. simpl.
  set (W := GroupPanel.widget_width p) in *.
  set (ms := mute_innerSize_width sizes) in *.
  set (sw := settings_width sizes) in *.
  set (k := groupCallButtonSkip gs) in *.
  rewrite (Z.quot_div_nonneg (W - (ms + 2 * sw + 2 * k)) 2) by lia.
  rewrite (Z.quot_div_nonneg (W - ms) 2) by lia.
  clearbody W ms sw k.
  pose proof (Z.div_mod (W - (ms + 2 * sw + 2 * k)) 2 ltac:(lia)) as Hfull.
  pose proof (Z.mod_pos_bound (W - (ms + 2 * sw + 2 * k)) 2 ltac:(lia)) as Hfr.
  pose proof (Z.div_mod (W - ms) 2 ltac:(lia)) as Hmute.
  pose proof (Z.mod_pos_bound (W - ms) 2 ltac:(lia)) as Hmr.
  repeat split; try reflexivity; lia.
Qed.

Lemma buttons_around_mute_witness :
  exists g,
    GroupPanel.controlsGeometry Sample.geometry_style Sample.sizes
      (Sample.panel Q_OS_WIN) = Some g
    /\ fst (settings_moveToLeft g) + 60 + 43 = fst (mute_moveInner g).
Proof.
  eexists. split; [reflexivity|].
  destruct (buttons_around_mute Sample.geometry_style Sample.sizes
              (Sample.panel Q_OS_WIN) _ eq_refl) as (_ & _ & Hgap & _);
    [simpl; lia | simpl; lia | simpl; lia |].
  exact Hgap.
Defined.

(** ** The invite box *)

Section InviteMore.

Import InviteController.

Lemma excluded_with_skippedUsers (S : gset positive) (c : InviteController.t)
    (v : positive) :
  excluded (with_skippedUsers S c) v = excluded c v.
Proof. reflexivity. Qed.

Lemma fold_emplace_elem (l : list positive) (s : gset positive)
    (v : positive) :
  v ∈ fold_left (fun s user => fst (emplace user s)) l s <-> v ∈ s \/ v ∈ l.
Proof.
  revert s. induction l as [|u l IH]; intros s; simpl.
  - split; [auto | intros [H|H]; [exact H | inversion H]].
  - rewrite IH, elem_of_union, elem_of_singleton, elem_of_cons. tauto.
Qed.

Lemma addMembers_shown (p : GroupPanel.t) (calls : gmap positive GroupCall)
    (c : InviteController.t) (weak : positive) :
  GroupPanel.addMembers p calls = Some (c, weak) ->
  exists cl real A,
    GroupPanel._call p = Some weak
    /\ calls !! weak = Some cl
    /\ channel_call (GroupPanel._channel p) = Some real
    /\ data_call_id real = call_id cl
    /\ c = make (GroupPanel._channel p) A (data_fullCount real)
    /\ forall v,
         v ∈ A
         <-> v ∈ invitedToCallUsers (GroupPanel._channel p) (data_call_id real)
             \/ v ∈ participants real
             \/ v = session_user (session (GroupPanel._channel p)).
Proof.
  unfold GroupPanel.addMembers, GroupPanel.call.
  destruct (GroupPanel._call p) as [ptr|]; [|discriminate].
  destruct (calls !! ptr) as [cl|] eqn:Hcl; [|discriminate].
  destruct (channel_call (GroupPanel._channel p)) as [real|]; [|discriminate].
  destruct (Z.eqb_spec (data_call_id real) (call_id cl)) as [Hid|Hid];
    [|discriminate].
  simpl. intros [= <- <-].
  eexists cl, real, _. repeat split; try reflexivity; try assumption.
  - intros Hv. apply elem_of_union in Hv as [Hv|Hv].
    + apply elem_of_singleton in Hv. auto.
    + apply fold_emplace_elem in Hv. tauto.
  - intros Hv. apply elem_of_union. rewrite elem_of_singleton.
    rewrite fold_emplace_elem. tauto.
Qed.

Lemma size_at_least_one (A : gset positive) (v : positive) :
  v ∈ A -> (1 <= size A)%nat.
Proof.
  intros Hv. destruct (size A) eqn:Hsize; [|lia].
  apply size_empty_inv in Hsize. exfalso.
  apply (not_elem_of_empty (C := gset positive) v). rewrite <- Hsize. exact Hv.
Qed.

End InviteMore.

(** X6.  Creating the rows of a list of users leaves the channel, the
    already-in set and the full-in count of the controller as they were, and
    makes the skipped set what it was together with the users of the list
    that are the viewer or a bot: nothing else is ever added and nothing is
    removed. *)
Theorem createRows_skipped
    (users : list positive) (c : InviteController.t) (d : PeerListDelegate) :
  let after := (InviteController.createRows c d users).1 in
  InviteController._channel after = InviteController._channel c
  /\ InviteController._alreadyIn after = InviteController._alreadyIn c
  /\ InviteController._fullInCount after = InviteController._fullInCount c
  /\ forall v,
       v ∈ InviteController._skippedUsers after
       <-> v ∈ InviteController._skippedUsers c
           \/ (v ∈ users /\ InviteController.excluded c v = true).
Proof.
  revert c d. induction users as [|u users IH]; intros c d; simpl.
  - repeat split; try reflexivity; [tauto|].
    intros [H|[H _]]; [exact H | inversion H].
  - destruct (InviteController.excluded c u) eqn:He.
    + rewrite (createRow_excluded c d u He).
      set (c' := InviteController.with_skippedUsers _ c).
      set (d' := if bool_decide _ then _ else _).
      destruct (IH c' d') as (Hch & Hin & Hfull & Hsk).
      repeat split; try assumption.
      * intros Hv. apply Hsk in Hv as [Hv|[Hv Hex]].
        -- apply elem_of_union in Hv as [Hv|Hv]; [|auto].
           apply elem_of_singleton in Hv as ->.
           right. split; [apply elem_of_cons; auto | exact He].
        -- right. split; [apply elem_of_cons; auto | exact Hex].
      * intros Hv. apply Hsk. destruct Hv as [Hv|[Hv Hex]].
        -- left. apply elem_of_union_r, Hv.
        -- apply elem_of_cons in Hv as [-> | Hv].
           ++ left. apply elem_of_union_l, elem_of_singleton. reflexivity.
           ++ right. split; assumption.
    + rewrite (createRow_row c d u He).
      destruct (IH c d) as (Hch & Hin & Hfull & Hsk).
      repeat split; try assumption.
      * intros Hv. apply Hsk in Hv as [Hv|[Hv Hex]]; [auto|].
        right. split; [apply elem_of_cons; auto | exact Hex].
      * intros Hv. apply Hsk. destruct Hv as [Hv|[Hv Hex]]; [auto|].
        apply elem_of_cons in Hv as [-> | Hv]; [congruence|].
        right. split; assumption.
Qed.

(** X7.  While the rows of a list of users are created, the title is
    refreshed once for each user that enters the skipped set and never
    otherwise: the delegate receives two calls (title and additional title)
    for each user by which the skipped set has grown, and its two counts are
    not changed. *)
Theorem createRows_refreshes
    (users : list positive) (c : InviteController.t) (d : PeerListDelegate) :
  let after := InviteController.createRows c d users in
  (length (delegate_calls after.2)
   + 2 * size (InviteController._skippedUsers c)
   = length (delegate_calls d)
     + 2 * size (InviteController._skippedUsers after.1))%nat
  /\ peerListFullRowsCount after.2 = peerListFullRowsCount d
  /\ peerListSelectedRowsCount after.2 = peerListSelectedRowsCount d.
Proof.
  revert c d. induction users as [|u users IH]; intros c d; simpl.
  - repeat split; reflexivity.
  - destruct (InviteController.excluded c u) eqn:He.
    + rewrite (createRow_excluded c d u He).
      destruct (decide (u ∈ InviteController._skippedUsers c)) as [Hin|Hnew].
      * assert (Hset : {[u]} ∪ InviteController._skippedUsers c
                       = InviteController._skippedUsers c)
          by (apply subseteq_union_1_L, singleton_subseteq_l, Hin).
        rewrite Hset, with_skippedUsers_same.
        rewrite bool_decide_eq_false_2 by (intros Hn; exact (Hn Hin)).
        apply IH.
      * rewrite bool_decide_eq_true_2 by exact Hnew.
        set (c' := InviteController.with_skippedUsers _ c).
        destruct (IH c' (InviteController.updateTitle c' d))
          as (Hlen & Hfull & Hsel).
        cbv zeta in Hlen.
        repeat split; [|exact Hfull | exact Hsel].
        assert (Hsize : size (InviteController._skippedUsers c')
                        = S (size (InviteController._skippedUsers c))).
        { unfold c'. simpl. rewrite size_union.
          - rewrite size_singleton. reflexivity.
          - apply disjoint_singleton_l, Hnew. }
        assert (Hcalls : length (delegate_calls
                                   (InviteController.updateTitle c' d))
                         = (length (delegate_calls d) + 2)%nat).
        { unfold InviteController.updateTitle, called. simpl.
          rewrite length_app. reflexivity. }
        rewrite Hcalls, Hsize in Hlen. lia.
    + rewrite (createRow_row c d u He). apply IH.
Qed.

(** X8.  [addMembers] shows its box only for a panel with a live call that
    is the call of the channel (same id); otherwise it does nothing.  The
    controller of the box is for the channel of the panel, holds weakly the
    call of the panel, has as already-in set exactly the users invited to the
    call, its participants and the viewer, has a full-in count that is at
    least the reported count and at least the size of that set, and starts
    with the viewer alone in its skipped set. *)
Theorem addMembers_controller
    (p : GroupPanel.t) (calls : gmap positive GroupCall) :
  match GroupPanel.addMembers p calls with
  | Some (c, weak) =>
      exists cl real,
        GroupPanel._call p = Some weak
        /\ calls !! weak = Some cl
        /\ channel_call (GroupPanel._channel p) = Some real
        /\ data_call_id real = call_id cl
        /\ InviteController._channel c = GroupPanel._channel p
        /\ (forall v,
              v ∈ InviteController._alreadyIn c
              <-> v ∈ invitedToCallUsers (GroupPanel._channel p)
                        (data_call_id real)
                  \/ v ∈ participants real
                  \/ v = session_user (session (GroupPanel._channel p)))
        /\ InviteController._fullInCount c
           = Z.max (data_fullCount real)
               (Z.of_nat (size (InviteController._alreadyIn c)))
        /\ InviteController._skippedUsers c
           = {[ session_user (session (GroupPanel._channel p)) ]}
  | None =>
      GroupPanel.call p calls = None
      \/ channel_call (GroupPanel._channel p) = None
      \/ exists ptr cl real,
           GroupPanel.call p calls = Some (ptr, cl)
           /\ channel_call (GroupPanel._channel p) = Some real
           /\ data_call_id real <> call_id cl
  end.
Proof.
  destruct (GroupPanel.addMembers p calls) as [[c weak]|] eqn:Hshown.
  - destruct (addMembers_shown p calls c weak Hshown)
      as (cl & real & A & Hcall & Hcl & Hreal & Hid & -> & HA).
    exists cl, real. simpl. repeat split; try assumption; try reflexivity.
    + apply HA.
    + apply HA.
    + apply union_empty_r_L.
  - unfold GroupPanel.addMembers in Hshown.
    destruct (GroupPanel.call p calls) as [[ptr cl]|]; [|auto].
    destruct (channel_call (GroupPanel._channel p)) as [real|]; [|auto].
    destruct (Z.eqb_spec (data_call_id real) (call_id cl)) as [Hid|Hid];
      [discriminate|].
    right. right. exists ptr, cl, real. auto.
Qed.

(** X9.  In the box [addMembers] shows, a user who is invited to the call,
    takes part in it or is the viewer can never be selected: whatever rows
    were created before, [createRow] gives such a user no row or a disabled
    and checked row, never an active one. *)
Theorem already_in_never_selectable
    (p : GroupPanel.t) (calls : gmap positive GroupCall)
    (c : InviteController.t) (weak : positive) (real : DataGroupCall)
    (d : PeerListDelegate) (users : list positive) (u : positive)
    (r : PeerListRow.t) :
  GroupPanel.addMembers p calls = Some (c, weak) ->
  channel_call (GroupPanel._channel p) = Some real ->
  u ∈ invitedToCallUsers (GroupPanel._channel p) (data_call_id real)
  \/ u ∈ participants real
  \/ u = session_user (session (GroupPanel._channel p)) ->
  let before := InviteController.createRows c d users in
  (InviteController.createRow before.1 before.2 u).1.1 = Some r ->
  PeerListRow.disabledState r = PeerListRow.DisabledChecked.
Proof.
  intros Hshown Hreal Hu before Hrow.
  destruct (addMembers_shown p calls c weak Hshown)
    as (cl & real' & A & _ & _ & Hreal' & _ & -> & HA).
  assert (real' = real) as -> by congruence.
  destruct (createRows_frame users
              (InviteController.make (GroupPanel._channel p) A
                 (data_fullCount real)) d) as (_ & Hin & _).
  fold before in Hin. simpl in Hin.
  destruct (InviteController.excluded before.1 u) eqn:He.
  - rewrite (createRow_excluded _ _ u He) in Hrow. discriminate Hrow.
  - rewrite (createRow_row _ _ u He) in Hrow. simpl in Hrow.
    injection Hrow as <-. simpl.
    rewrite bool_decide_eq_true_2; [reflexivity|].
    rewrite Hin. apply HA, Hu.
Qed.

Lemma already_in_never_selectable_witness :
  exists c r,
    GroupPanel.addMembers (Sample.panel Q_OS_WIN) Sample.calls
    = Some (c, 9%positive)
    /\ (InviteController.createRow c Sample.delegate 2%positive).1.1 = Some r
    /\ PeerListRow.disabledState r = PeerListRow.DisabledChecked.
Proof.
  eexists _, _. split; [reflexivity|]. split; [reflexivity|].
  eapply (already_in_never_selectable (Sample.panel Q_OS_WIN) Sample.calls
            _ 9%positive Sample.real Sample.delegate [] 2%positive).
  - reflexivity.
  - reflexivity.
  - right. left. apply list_elem_of_In. simpl. auto.
  - reflexivity.
Defined.

(** X10.  In the box [addMembers] shows, whatever the skipped set has
    become, as long as the already-in count and the number of selected rows
    add up to a value of an [int], the numerator of the counter is at least
    the number of selected rows, and as soon as a row is selected the counter
    is shown, with a positive numerator that is not above the
    denominator. *)
Theorem counter_shown_when_selected
    (p : GroupPanel.t) (calls : gmap positive GroupCall)
    (c : InviteController.t) (weak : positive) (S : gset positive)
    (d : PeerListDelegate) :
  GroupPanel.addMembers p calls = Some (c, weak) ->
  0 < peerListSelectedRowsCount d ->
  InviteController.alreadyInCount c + peerListSelectedRowsCount d
  <= 2147483647 ->
  let c' := InviteController.with_skippedUsers S c in
  peerListSelectedRowsCount d <= InviteController.inOrInvited c' d
  /\ 0 < InviteController.inOrInvited c' d
  /\ InviteController.inOrInvited c' d <= InviteController.canBeInvited c' d
  /\ InviteController.additional c' d
     = String.append (QString.number (InviteController.inOrInvited c' d))
         (String.append " / "
            (QString.number (InviteController.canBeInvited c' d))).
Proof.
  intros Hshown Hsel Hfits c'.
  destruct (addMembers_viewer_in_both p calls c weak Hshown) as [Hself _].
  apply size_at_least_one in Hself.
  assert (Hcount : InviteController.alreadyInCount c'
                   = InviteController.alreadyInCount c) by reflexivity.
  assert (Hone : 1 <= InviteController.alreadyInCount c)
    by (unfold InviteController.alreadyInCount; lia).
  assert (Hn : InviteController.inOrInvited c' d
               = InviteController.alreadyInCount c
                 + peerListSelectedRowsCount d - 1).
  { rewrite inOrInvited_in_int; rewrite Hcount;
      [reflexivity | unfold in_int; lia | unfold in_int; lia]. }
  pose proof (canBeInvited_max c' d) as Hmax.
  split; [lia|]. split; [lia|]. split; [lia|].
  apply additional_shown. lia.
Qed.

Lemma counter_shown_when_selected_witness :
  exists c,
    GroupPanel.addMembers (Sample.panel Q_OS_WIN) Sample.calls
    = Some (c, 9%positive)
    /\ InviteController.additional
         (InviteController.with_skippedUsers {[1%positive; 3%positive]} c)
         Sample.delegate = "2 / 8"%string.
Proof.
  eexists. split; [reflexivity|].
  destruct (counter_shown_when_selected (Sample.panel Q_OS_WIN) Sample.calls
              _ 9%positive {[1%positive; 3%positive]} Sample.delegate
              eq_refl) as (_ & _ & _ & Htext);
    [simpl; lia | vm_compute; discriminate|].
  rewrite Htext. vm_compute. reflexivity.
Defined.

(** ** The handlers of the panel *)

Section Handlers.

Import GroupPanel.

Lemma setMuted_back (c : GroupCall) (m : MuteState.t) :
  setMuted (muted c) (setMuted m c) = c.
Proof. destruct c. reflexivity. Qed.

Lemma call_detached (p : GroupPanel.t) (calls : gmap positive GroupCall) :
  _call p = None -> call p calls = None.
Proof. unfold call. intros ->. reflexivity. Qed.

Lemma call_inv (p : GroupPanel.t) (calls : gmap positive GroupCall)
    (ptr : positive) (c : GroupCall) :
  call p calls = Some (ptr, c) -> _call p = Some ptr /\ calls !! ptr = Some c.
Proof.
  unfold call. destruct (_call p) as [q|]; [|discriminate].
  destruct (calls !! q) as [c'|] eqn:Hc; [|discriminate].
  intros [= <- <-]. auto.
Qed.

Lemma muteClicked_no_call (button : MouseButton) (p : GroupPanel.t)
    (calls : gmap positive GroupCall) :
  call p calls = None -> muteClicked button p calls = calls.
Proof. unfold muteClicked. intros ->. destruct button; reflexivity. Qed.

End Handlers.

(** X11.  Two clicks of the left button on the mute button leave every call
    as it was: a call that is [Active] or [Muted] goes to the other state
    and back, a [ForceMuted] call and a panel without a call are not
    changed by either click. *)
Theorem muteClicked_twice
    (p : GroupPanel.t) (calls : gmap positive GroupCall) :
  GroupPanel.muteClicked LeftButton p
    (GroupPanel.muteClicked LeftButton p calls) = calls.
Proof.
  destruct (GroupPanel.call p calls) as [[ptr c]|] eqn:Hcall.
  - apply call_inv in Hcall as [Hp Hc].
    rewrite (muteClicked_call p calls ptr c Hp Hc).
    destruct (muted c) eqn:Hm.
    + rewrite (muteClicked_call p _ ptr (setMuted MuteState.Muted c) Hp)
        by apply lookup_insert_eq.
      simpl. rewrite insert_insert_eq, <- Hm, setMuted_back.
      apply insert_id, Hc.
    + rewrite (muteClicked_call p _ ptr (setMuted MuteState.Active c) Hp)
        by apply lookup_insert_eq.
      simpl. rewrite insert_insert_eq, <- Hm, setMuted_back.
      apply insert_id, Hc.
    + rewrite (muteClicked_call p calls ptr c Hp Hc), Hm. reflexivity.
  - rewrite (muteClicked_no_call LeftButton p calls Hcall).
    apply muteClicked_no_call, Hcall.
Qed.

(** X12.  A click on the mute button performs no operation on any call
    other than setting the mute state of the call of the panel: no call is
    added or removed, the operations recorded for every call and its id are
    as before, every call other than the one of the panel is as before, and
    a click of a button other than the left one changes nothing. *)
Theorem muteClicked_frame
    (button : MouseButton) (p : GroupPanel.t)
    (calls : gmap positive GroupCall) (ptr : positive) :
  let after := GroupPanel.muteClicked button p calls in
  call_ops <$> after !! ptr = call_ops <$> calls !! ptr
  /\ call_id <$> after !! ptr = call_id <$> calls !! ptr
  /\ (GroupPanel._call p <> Some ptr -> after !! ptr = calls !! ptr)
  /\ (button <> LeftButton -> after = calls).
Proof.
  intros after. subst after.
  destruct button; try (repeat split; reflexivity).
  destruct (GroupPanel.call p calls) as [[q c]|] eqn:Hcall.
  - apply call_inv in Hcall as [Hp Hc].
    rewrite (muteClicked_call p calls q c Hp Hc).
    destruct (decide (q = ptr)) as [->|Hne].
    + destruct (muted c); rewrite ?lookup_insert_eq, Hc; simpl;
        repeat split; try reflexivity; intros; congruence.
    + destruct (muted c); rewrite ?lookup_insert_ne by exact Hne;
        repeat split; try reflexivity; intros; congruence.
  - rewrite (muteClicked_no_call LeftButton p calls Hcall).
    repeat split; reflexivity.
Qed.

(** X13.  The box [hangup] shows acts on the call of the panel: its leave
    button closes the box and performs exactly one operation on that call
    and none on any other; with the check box left as the box was opened,
    the operation is [discard] only when the channel can manage the call and
    the box was opened with the check box checked, and [hangup] in every
    other case, so that a user who cannot manage the call never discards
    it. *)
Theorem leave_box_hangs_up_or_discards
    (p : GroupPanel.t) (calls : gmap positive GroupCall)
    (discardChecked : bool) (box : LeaveBox.t) :
  GroupPanel.hangup discardChecked p calls = Some box ->
  exists ptr c,
    GroupPanel._call p = Some ptr
    /\ calls !! ptr = Some c
    /\ fst (LeaveBox.leaveClicked box calls) = LeaveBox.closeBox box
    /\ (canManageCall (call_channel c) = true -> discardChecked = true ->
        snd (LeaveBox.leaveClicked box calls)
        = <[ptr := performed OpDiscard c]> calls)
    /\ (canManageCall (call_channel c) = false \/ discardChecked = false ->
        snd (LeaveBox.leaveClicked box calls)
        = <[ptr := performed OpHangup c]> calls).
Proof.
  unfold GroupPanel.hangup.
  destruct (GroupPanel.call p calls) as [[ptr c]|] eqn:Hcall; [|discriminate].
  apply call_inv in Hcall as [Hp Hc].
  intros [= <-]. exists ptr, c.
  unfold LeaveBox.leaveClicked, LeaveBox.LeaveGroupCallBox. simpl.
  rewrite Hc.
  split; [exact Hp|]. split; [reflexivity|].
  destruct (canManageCall (call_channel c)), discardChecked; simpl;
    repeat split; try reflexivity; intros; try discriminate;
    match goal with H : _ \/ _ |- _ => destruct H; discriminate end.
Qed.

Lemma leave_box_hangs_up_or_discards_witness :
  exists box,
    GroupPanel.hangup false (Sample.panel Q_OS_WIN) Sample.calls = Some box
    /\ snd (LeaveBox.leaveClicked box Sample.calls)
       = <[9%positive := performed OpHangup Sample.group_call]> Sample.calls.
Proof.
  eexists. split; [reflexivity|].
  destruct (leave_box_hangs_up_or_discards (Sample.panel Q_OS_WIN)
              Sample.calls false _ eq_refl)
    as (ptr & c & Hp & Hc & _ & _ & Hhangup).
  injection Hp as <-. injection Hc as <-.
  apply Hhangup. right. reflexivity.
Defined.

(** X14.  The text and the kind [initWithCall] gives the mute button always
    agree: the button is of the connecting kind, with the connecting text,
    exactly while the call is being created, joined or connected; otherwise
    it has the force-muted text exactly when it is of the force-muted kind,
    the unmute text exactly when of the muted kind, and the mute text
    exactly when of the active kind.  After a click of the left button on a
    live call that is not force-muted, the button of a connected call is of
    the muted kind if the call was active and of the active kind if
    not. *)
Theorem muteButtonState_agrees (mute : MuteState.t) (connecting : bool) :
  let s := GroupPanel.muteButtonState mute connecting in
  (button_type s = CallMuteButtonType.Connecting <-> connecting = true)
  /\ (button_text s = lng_group_call_connecting
      <-> button_type s = CallMuteButtonType.Connecting)
  /\ (button_text s = lng_group_call_force_muted
      <-> button_type s = CallMuteButtonType.ForceMuted)
  /\ (button_text s = lng_call_unmute_audio
      <-> button_type s = CallMuteButtonType.Muted)
  /\ (button_text s = lng_call_mute_audio
      <-> button_type s = CallMuteButtonType.Active)
  /\ (forall p calls ptr c,
        GroupPanel._call p = Some ptr -> calls !! ptr = Some c ->
        muted c = mute -> mute <> MuteState.ForceMuted ->
        exists c',
          GroupPanel.muteClicked LeftButton p calls !! ptr = Some c'
          /\ button_type (GroupPanel.muteButtonState (muted c') false)
             = match mute with
               | MuteState.Active => CallMuteButtonType.Muted
               | _ => CallMuteButtonType.Active
               end).
Proof.
  intros s. subst s.
  repeat split; try (destruct mute, connecting; simpl; congruence).
  intros p calls ptr c Hp Hc Hm Hforce.
  rewrite (muteClicked_call p calls ptr c Hp Hc), Hm.
  destruct mute; try contradiction;
    eexists; (split; [apply lookup_insert_eq | reflexivity]).
Qed.

Lemma muteButtonState_agrees_witness :
  exists c',
    GroupPanel.muteClicked LeftButton (Sample.panel Q_OS_WIN) Sample.calls
      !! 9%positive = Some c'
    /\ button_type (GroupPanel.muteButtonState (muted c') false)
       = CallMuteButtonType.Muted.
Proof.
  refine (proj2 (proj2 (proj2 (proj2 (proj2
            (muteButtonState_agrees MuteState.Active false)))))
            (Sample.panel Q_OS_WIN) Sample.calls 9%positive Sample.group_call
            _ _ _ _); (reflexivity || discriminate).
Defined.

(** X15.  [closeBeforeDestroy] detaches the panel from its call and hides
    the window: the close it asks for is cancelled by the panel's own event
    filter while the call is attached (the window is hidden, not closed) and
    goes through when no call is attached.  Afterwards no handler of the
    panel touches a call: clicks on the mute button and mute requests change
    nothing, [hangup] and [addMembers] show no box, and a close of the
    window is no longer cancelled. *)
Theorem closeBeforeDestroy_detaches
    (p : GroupPanel.t) (w : Window) (calls : gmap positive GroupCall) :
  let after := GroupPanel.closeBeforeDestroy p w calls in
  GroupPanel._call after.1 = None
  /\ window_hidden after.2 = true
  /\ (window_closed after.2 = true
      <-> GroupPanel._call p = None \/ window_closed w = true)
  /\ forall (calls' : gmap positive GroupCall) button user mute discard,
       GroupPanel.muteClicked button after.1 calls' = calls'
       /\ GroupPanel.toggleMuteRequested user mute after.1 calls' = calls'
       /\ GroupPanel.hangup discard after.1 calls' = None
       /\ GroupPanel.addMembers after.1 calls' = None
       /\ GroupPanel.closeEventFilter Close after.1 after.2
          = (Continue, after.2).
Proof.
  intros after. subst after.
  unfold GroupPanel.closeBeforeDestroy, GroupPanel.closeWindow,
    GroupPanel.closeEventFilter, GroupPanel.handleClose. simpl.
  split; [reflexivity|]. split; [destruct (GroupPanel._call p); reflexivity|].
  split.
  - destruct (GroupPanel._call p); simpl; split; intros H; auto;
      destruct H as [H|H]; congruence.
  - intros calls' button user mute discard.
    assert (Hcall : GroupPanel.call
                      (GroupPanel.set_call None (GroupPanel._channel p) p)
                      calls' = None) by reflexivity.
    unfold GroupPanel.toggleMuteRequested, GroupPanel.hangup,
      GroupPanel.addMembers.
    rewrite Hcall, (muteClicked_no_call button _ calls' Hcall).
    repeat split; reflexivity.
Qed.
